(** * Borrow/lend ledger: the transaction store, the balance summary and
      the form validation of the frontend, embedded and verified.

    Sources embedded here:
    - [src/context/TransactionContext.tsx] (the provider: [fetchTransactions],
      [addTransaction], the [summaries] memo),
    - [src/services/api.ts] ([getTransactions], [createTransaction]),
    - [src/components/TransactionForm.tsx] ([validateForm], [handleSubmit]),
    - [src/components/SummaryDisplay.tsx], [src/components/TransactionList.tsx],
      [src/pages/LedgerPage.tsx], [src/pages/SummaryPage.tsx].

    Modelling conventions.
    - A JS string is a [string] whose characters are code units below 256.
    - A JS number is an IEEE 754 binary64 value: a [spec_float] of the
      Standard Library, with its operations at precision 53 and maximal
      exponent 1024 (round to nearest, ties to even; one not-a-number).
    - The [Summary] object is a plain object: its own properties are a
      [gmap] from names to stored values (a number, or the string that [+=]
      builds on an inherited function), and a read of a name that is not an
      own property falls through to [Object.prototype].
    - [useState] cells are fields of a record threaded through the code; the
      setters overwrite a field.  An asynchronous function is run to
      completion, with no other handler interleaved at its awaits; what
      observers see during an await is recorded with the request.  The remote
      service is a parameter. *)

From Stdlib Require Import ZArith NArith String Ascii List Lia.
From Stdlib Require Import Floats.SpecFloat.
From stdpp Require Import base gmap strings list fin_maps.

Local Open Scope Z_scope.

(** ** JS string primitives used by the sources *)

Module JsString.

(** [WhiteSpace] and [LineTerminator] code units below 256: TAB, LF, VT, FF,
    CR, SP and NBSP.  These are what [String.prototype.trim] strips and what
    [parseFloat] skips. *)
Definition isWhiteSpace (c : ascii) : bool :=
  let n := N_of_ascii c in
  ((9 <=? n) && (n <=? 13) || (n =? 32) || (n =? 160))%N.

Fixpoint trimStart (s : string) : string :=
  match s with
  | EmptyString => EmptyString
  | String c s' => if isWhiteSpace c then trimStart s' else s
  end.

Fixpoint trimEnd (s : string) : string :=
  match s with
  | EmptyString => EmptyString
  | String c s' =>
      match trimEnd s' with
      | EmptyString => if isWhiteSpace c then EmptyString else String c EmptyString
      | r => String c r
      end
  end.

(** [s.trim()] *)
Definition trim (s : string) : string := trimEnd (trimStart s).

(** Lower-casing of one code unit below 256: A-Z, and the Latin-1 capitals
    U+00C0..U+00DE except the multiplication sign U+00D7. *)
Definition lowerChar (c : ascii) : ascii :=
  let n := N_of_ascii c in
  if ((65 <=? n) && (n <=? 90) || (192 <=? n) && (n <=? 222) && negb (n =? 215))%N
  then ascii_of_N (n + 32) else c.

(** [s.toLowerCase()] *)
Fixpoint toLowerCase (s : string) : string :=
  match s with
  | EmptyString => EmptyString
  | String c s' => String (lowerChar c) (toLowerCase s')
  end.

(** Truthiness of a string: only the empty string is falsy. *)
Definition truthy (s : string) : bool :=
  match s with EmptyString => false | _ => true end.

End JsString.

(** ** JS numbers *)

Module JsNumber.
Import JsString.

(** The binary64 format. *)
Abbreviation number := spec_float.
Definition prec : Z := 53.
Definition emax : Z := 1024.

Definition NaN : number := S754_nan.
Definition zero : number := S754_zero false.

(** [x + y], [x - y], [x < y], [x <= y], [Math.abs(x)] *)
Definition add (x y : number) : number := SFadd prec emax x y.
Definition sub (x y : number) : number := SFsub prec emax x y.
Definition lt (x y : number) : bool := SFltb x y.
Definition le (x y : number) : bool := SFleb x y.
Definition abs (x : number) : number := SFabs x.

(** [isNaN(x)] *)
Definition isNaN (x : number) : bool :=
  match x with S754_nan => true | _ => false end.

(** [x <= 0]; every comparison with not-a-number is false. *)
Definition le_zero (x : number) : bool := le x zero.

(** The number nearest to an integer, and the integral part of a number (0
    for an infinity or not-a-number). *)
Definition of_Z (n : Z) : number := binary_normalize prec emax n 0 false.

Definition to_Z (x : number) : Z :=
  match x with
  | S754_finite s m e =>
      let v := if 0 <=? e then Zpos m * 2 ^ e else Zpos m / 2 ^ (- e) in
      if s then - v else v
  | _ => 0
  end.

(** The canonical binary64 representation of an integer below 2^53 in
    magnitude: the mantissa is the integer shifted left until it has 53
    bits.  [shln v n] is [v * 2^n]. *)
Definition shln (v : positive) (n : nat) : positive := Nat.iter n xO v.

Definition canon (n : Z) : number :=
  match n with
  | Z0 => S754_zero false
  | Zpos v =>
      S754_finite false (shln v (Z.to_nat (53 - Zpos (digits2_pos v))))
        (Zpos (digits2_pos v) - 53)
  | Zneg v =>
      S754_finite true (shln v (Z.to_nat (53 - Zpos (digits2_pos v))))
        (Zpos (digits2_pos v) - 53)
  end.

(** What a [StrDecimalLiteral] denotes: nothing, an infinity, or a decimal
    value, kept as sign, mantissa and power of ten
    ([mantissa * 10^exponent]). *)
Inductive literal :=
| NoLiteral
| InfinityLiteral (negative : bool)
| DecimalLiteral (negative : bool) (mantissa : N) (exponent : Z).

Definition digit (c : ascii) : option N :=
  let n := N_of_ascii c in
  if ((48 <=? n) && (n <=? 57))%N then Some (n - 48)%N else None.

(** Longest prefix of decimal digits: accumulated value, number of digits
    read, and the rest of the string. *)
Fixpoint digits (s : string) (acc : N) (count : nat) : N * nat * string :=
  match s with
  | EmptyString => (acc, count, s)
  | String c s' =>
      match digit c with
      | Some d => digits s' (10 * acc + d)%N (S count)
      | None => (acc, count, s)
      end
  end.

Definition sign (s : string) : bool * string :=
  match s with
  | String "-" r => (true, r)
  | String "+" r => (false, r)
  | _ => (false, s)
  end.

(** [ExponentPart], when the string starts with a complete one; 0 when it
    does not (the literal then ends before it). *)
Definition exponentPart (s : string) : Z :=
  match s with
  | String c r =>
      if (Ascii.eqb c "e" || Ascii.eqb c "E")%bool then
        let '(negative, r') := sign r in
        let '(e, n, _) := digits r' 0%N 0%nat in
        match n with
        | O => 0
        | _ => if negative then - Z.of_N e else Z.of_N e
        end
      else 0
  | EmptyString => 0
  end.

(** The longest prefix that is a [StrDecimalLiteral], after the leading
    white space. *)
Definition parseLiteral (s : string) : literal :=
  let '(negative, u) := sign (trimStart s) in
  if String.prefix "Infinity" u then InfinityLiteral negative
  else
    let '(i, ni, r1) := digits u 0%N 0%nat in
    let '(m, nf, r2) :=
      match r1 with
      | String "." r => digits r i 0%nat
      | _ => (i, 0%nat, r1)
      end in
    match ni, nf with
    | O, O => NoLiteral
    | _, _ => DecimalLiteral negative m (exponentPart r2 - Z.of_nat nf)
    end.

(** The number a literal denotes: its value rounded to the nearest binary64
    number.  A value [m * 10^e] with [e >= 0] is an integer, rounded by
    [binary_round]; with [e < 0] it is the quotient [m / 10^(-e)], rounded
    by the correctly rounded division on the two integers. *)
Definition round (l : literal) : number :=
  match l with
  | NoLiteral => NaN
  | InfinityLiteral negative => S754_infinity negative
  | DecimalLiteral negative N0 _ => S754_zero negative
  | DecimalLiteral negative (Npos m) e =>
      if 0 <=? e
      then binary_round prec emax negative (m * Z.to_pos (10 ^ e)) 0
      else SFdiv prec emax (S754_finite negative m 0)
                           (S754_finite false (Z.to_pos (10 ^ (- e))) 0)
  end.

(** [parseFloat(s)] *)
Definition parseFloat (s : string) : number := round (parseLiteral s).

End JsNumber.

(** ** Data model ([TransactionContext.tsx]) *)

(** [interface Transaction]; the optional fields are [option]s. *)
Record Transaction := mkTransaction {
  _id : option string;
  lender : string;
  borrower : string;
  amount : JsNumber.number;
  createdAt : option string
}.

(** ** Property access on a plain object *)

Module JsObject.
Import JsNumber.

(** What an own property of the summary object can hold at run time: a
    number, or a string.  The only strings the loop ever stores are the text
    of an inherited function (or [[object Object]]) followed by the decimal
    renderings of the numbers appended to it, in order; such a string never
    denotes a number.  [Text l] stands for it, [l] being the appended
    numbers. *)
Inductive stored :=
| Number (x : number)
| Text (appended : list number).

(** The property names that [Object.prototype] defines: every object created
    by [{}] inherits them. *)
Definition inherited_names : list string :=
  ["constructor"; "__defineGetter__"; "__defineSetter__"; "hasOwnProperty";
   "__lookupGetter__"; "__lookupSetter__"; "isPrototypeOf";
   "propertyIsEnumerable"; "toString"; "valueOf"; "__proto__";
   "toLocaleString"]%string.

Definition inherited (k : string) : bool :=
  existsb (String.eqb k) inherited_names.

(** What a read [o[k]] gives: [undefined], a function or object inherited
    from the prototype, or the value of the own property. *)
Inductive value :=
| Undefined
| Inherited
| Own (v : stored).

(** [o[k]], for the own properties [o] of an object created by [{}]. *)
Definition get (o : gmap string stored) (k : string) : value :=
  match o !! k with
  | Some v => Own v
  | None => if inherited k then Inherited else Undefined
  end.

(** [ToNumber]: [undefined], a function, [Object.prototype] and the strings
    of [Text] all convert to not-a-number. *)
Definition ToNumber (v : value) : number :=
  match v with
  | Own (Number x) => x
  | Own (Text _) | Undefined | Inherited => NaN
  end.

(** [v - a]: always the subtraction of numbers. *)
Definition minus (v : value) (a : number) : stored :=
  Number (sub (ToNumber v) a).

(** [v + a]: the addition of numbers, unless [v] is a string or converts to
    one (a function, an object), where it is a concatenation. *)
Definition plus (v : value) (a : number) : stored :=
  match v with
  | Own (Number x) => Number (add x a)
  | Undefined => Number (add NaN a)
  | Inherited => Text [a]
  | Own (Text l) => Text (l ++ [a])
  end.

(** [o[k] = v] for a number or string [v]: it creates or updates the own
    property, except that the [__proto__] setter ignores a value that is not
    an object and leaves the object as it was. *)
Definition set (k : string) (v : stored) (o : gmap string stored)
  : gmap string stored :=
  if String.eqb k "__proto__" then o else <[k := v]> o.

End JsObject.
Export JsObject(stored, Number, Text).

(** [interface Summary { [personName: string]: number }], as the object is
    at run time: its own properties. *)
Abbreviation Summary := (gmap string stored).

(** ** The balance summary (the [summaries] memo) *)

Module Aggregator.
Import JsString JsNumber JsObject.

(** [arr.forEach(body)] over a mutable accumulator, as state passing. *)
Fixpoint forEach {S A : Type} (body : S -> A -> S) (arr : list A) (acc : S) : S :=
  match arr with
  | [] => acc
  | x :: rest => forEach body rest (body acc x)
  end.

(** [if (o[k] === undefined) { o[k] = 0; }] *)
Definition init_if_undefined (k : string) (o : Summary) : Summary :=
  match get o k with
  | Undefined => set k (Number zero) o
  | Inherited | Own _ => o
  end.

(** [o[k] -= a]: reads the property, subtracts and writes the result back. *)
Definition sub_assign (k : string) (a : number) (o : Summary) : Summary :=
  set k (minus (get o k) a) o.

(** [o[k] += a] *)
Definition add_assign (k : string) (a : number) (o : Summary) : Summary :=
  set k (plus (get o k) a) o.

(** The callback passed to [transactions.forEach]. *)
Definition body (tempSummary : Summary) (tx : Transaction) : Summary :=
  let lender := trim (lender tx) in
  let borrower := trim (borrower tx) in
  let amount := amount tx in
  let s1 := init_if_undefined lender tempSummary in
  let s2 := init_if_undefined borrower s1 in
  let s3 := sub_assign lender amount s2 in
  add_assign borrower amount s3.

(** [summaries]: the value of the memo for a given [transactions] array. *)
Definition summaries (transactions : list Transaction) : Summary :=
  forEach body transactions ∅.

(** The fold of the specification, in its words: insert each trimmed name
    with value 0 if previously absent, then subtract the amount from the
    lender's entry and add it to the borrower's entry. *)
Definition ensure_key (k : string) (m : gmap string number) : gmap string number :=
  partial_alter (fun o => Some (default zero o)) k m.

Definition aggregate_step (m : gmap string number) (tx : Transaction)
  : gmap string number :=
  let l := trim (lender tx) in
  let b := trim (borrower tx) in
  alter (fun v => add v (amount tx)) b
    (alter (fun v => sub v (amount tx)) l (ensure_key b (ensure_key l m))).

Definition aggregate_fold (transactions : list Transaction) : gmap string number :=
  foldl aggregate_step ∅ transactions.

(** The loop seen from one name [k]: what the four statements of the body do
    to the property [k], given what it holds ([None]: no own property). *)
Definition getk (k : string) (o : option stored) : value :=
  match o with
  | Some v => Own v
  | None => if inherited k then Inherited else Undefined
  end.

Definition setk (k : string) (v : stored) (o : option stored) : option stored :=
  if String.eqb k "__proto__" then o else Some v.

Definition key_init (k : string) (o : option stored) : option stored :=
  match getk k o with
  | Undefined => setk k (Number zero) o
  | Inherited | Own _ => o
  end.

Definition key_step (k : string) (t : Transaction) (o : option stored)
  : option stored :=
  let l := trim (lender t) in
  let b := trim (borrower t) in
  let o1 := if decide (l = k) then key_init k o else o in
  let o2 := if decide (b = k) then key_init k o1 else o1 in
  let o3 := if decide (l = k) then setk k (minus (getk k o2) (amount t)) o2 else o2 in
  if decide (b = k) then setk k (plus (getk k o3) (amount t)) o3 else o3.

(** [k] is the trimmed lender or borrower of some transaction. *)
Definition is_lender (k : string) (txs : list Transaction) : Prop :=
  Exists (fun tx => trim (lender tx) = k) txs.
Definition is_borrower (k : string) (txs : list Transaction) : Prop :=
  Exists (fun tx => trim (borrower tx) = k) txs.

(** A valid transaction of the data model: positive amount, lender distinct
    from borrower. *)
Definition valid (tx : Transaction) : Prop :=
  lt zero (amount tx) = true /\ lender tx <> borrower tx.

(** A record with an integral amount. *)
Definition tx (l b : string) (a : Z) : Transaction :=
  mkTransaction None l b (of_Z a) None.

(** Amounts that the additions of the loop cannot round: every amount is an
    integer, and the absolute values of the amounts sum to less than 2^53. *)
Definition units (t : Transaction) : Z := to_Z (amount t).

Definition integral (t : Transaction) : Prop := amount t = of_Z (units t).

Fixpoint volume (txs : list Transaction) : Z :=
  match txs with [] => 0 | t :: r => Z.abs (units t) + volume r end.

Definition exact_amounts (txs : list Transaction) : Prop :=
  Forall integral txs /\ volume txs < 2 ^ 53.

(** Names that are not property names of [Object.prototype]. *)
Definition plain (k : string) : Prop := inherited k = false.

Definition plain_names (txs : list Transaction) : Prop :=
  Forall (fun t => plain (trim (lender t)) /\ plain (trim (borrower t))) txs.

(** The integer a stored value stands for, the sum of these over a summary,
    and the summaries all of whose values are integers. *)
Definition units_of (v : stored) : Z :=
  match v with Number x => to_Z x | Text _ => 0 end.

Definition total (m : Summary) : Z := map_fold (fun _ v acc => units_of v + acc) 0 m.

(** The stored number of an integer. *)
Definition as_number (z : Z) : stored := Number (of_Z z).

Definition integral_values (m : Summary) : Prop :=
  forall k v, m !! k = Some v -> v = as_number (units_of v).

End Aggregator.

(** ** The ledger over the integers

    The balances as sums of integers, with no rounding and no inherited
    names: what the summary is compared with when the amounts are integral.
    It is not a model of the code. *)

Module Ideal.
Import JsString Aggregator.

Definition init_if_absent (k : string) (o : gmap string Z) : gmap string Z :=
  match o !! k with
  | None => <[k := 0]> o
  | Some _ => o
  end.

Definition step (m : gmap string Z) (t : Transaction) : gmap string Z :=
  let l := trim (lender t) in
  let b := trim (borrower t) in
  alter (fun v => v + units t) b
    (alter (fun v => v - units t) l (init_if_absent b (init_if_absent l m))).

Definition balances (txs : list Transaction) : gmap string Z :=
  foldl step ∅ txs.

(** Sum of all balances. *)
Definition total (m : gmap string Z) : Z := map_fold (fun _ v acc => v + acc) 0 m.

(** What [k] lent and borrowed. *)
Definition lent (k : string) (t : Transaction) : Z :=
  if decide (trim (lender t) = k) then units t else 0.
Definition borrowed (k : string) (t : Transaction) : Z :=
  if decide (trim (borrower t) = k) then units t else 0.

Fixpoint sum_lent (k : string) (txs : list Transaction) : Z :=
  match txs with [] => 0 | t :: r => lent k t + sum_lent k r end.
Fixpoint sum_borrowed (k : string) (txs : list Transaction) : Z :=
  match txs with [] => 0 | t :: r => borrowed k t + sum_borrowed k r end.

(** A step seen from one name. *)
Definition key_step (k : string) (t : Transaction) (oz : option Z) : option Z :=
  match oz with
  | Some v => Some (v + borrowed k t - lent k t)
  | None =>
      if decide (trim (lender t) = k \/ trim (borrower t) = k)
      then Some (borrowed k t - lent k t) else None
  end.

End Ideal.

(** ** The API service ([services/api.ts]) and the store ([TransactionContext.tsx]) *)

(** [interface TransactionPayload] *)
Module Payload.
Record TransactionPayload := mk {
  lender : string;
  borrower : string;
  amount : JsNumber.number
}.
End Payload.
Export Payload(TransactionPayload).

Module Store.
Import JsString.

(** A thrown value, with the two properties the handlers read:
    [err.response?.data?.message] and [err.message]. *)
Record JsError := mkJsError {
  response_message : option string;
  message : string
}.

(** [new Error(msg)] *)
Definition Error (msg : string) : JsError := mkJsError None msg.

(** How a call ends. *)
Inductive outcome (A : Type) :=
| Returned (a : A)
| Thrown (e : JsError).
Arguments Returned {A} a.
Arguments Thrown {A} e.

(** The three [useState] cells of the provider. *)
Record State := mkState {
  transactions : list Transaction;
  isLoading : bool;
  error : option string
}.

(** Observable events: the calls of the two store operations and the
    requests sent, each request with the state that observers see while it
    is in flight. *)
Inductive Event :=
| CallFetchTransactions
| CallAddTransaction (payload : TransactionPayload)
| RequestGet (visible : State)
| RequestPost (payload : TransactionPayload) (visible : State).

Definition is_get (e : Event) : bool :=
  match e with RequestGet _ => true | _ => false end.
Definition is_fetch_call (e : Event) : bool :=
  match e with CallFetchTransactions => true | _ => false end.

(** The state that observers see while [load()] waits for its answer. *)
Definition loading_state (s : State) : State := mkState (transactions s) true None.

(** The state that observers see while [create()] waits for its answer. *)
Definition creating_state (s : State) : State :=
  mkState (transactions s) true (error s).

Section Remote.
(** The remote service: its state, and how it answers [GET /transactions]
    and [POST /transactions].  [Thrown] is a rejected axios promise
    (transport failure or non-2xx status). *)
Variable R : Type.
Variable http_get : R -> R * outcome (list Transaction).
Variable http_post : TransactionPayload -> R -> R * outcome Transaction.

Record World := mkWorld {
  state : State;
  remote : R;
  trace : list Event
}.

(** Computations over the world that return or throw. *)
Definition M (A : Type) : Type := World -> World * outcome A.

Definition throw {A} (e : JsError) : M A := fun w => (w, Thrown e).
Definition bind {A B} (c : M A) (k : A -> M B) : M B :=
  fun w =>
    match c w with
    | (w', Returned a) => k a w'
    | (w', Thrown e) => (w', Thrown e)
    end.

(** [try { body } catch (err) { handler(err) }] *)
Definition try_catch {A} (body : M A) (handler : JsError -> M A) : M A :=
  fun w =>
    match body w with
    | (w', Returned a) => (w', Returned a)
    | (w', Thrown e) => handler e w'
    end.

(** [try { body } finally { fin }] *)
Definition try_finally {A} (body : M A) (fin : M unit) : M A :=
  fun w =>
    let '(w', r) := body w in
    match fin w' with
    | (w'', Returned _) => (w'', r)
    | (w'', Thrown e) => (w'', Thrown e)
    end.

Notation "x <- c ;; k" := (bind c (fun x => k))
  (at level 100, c at next level, right associativity).
Notation "c ;; k" := (bind c (fun _ => k))
  (at level 100, right associativity).

Definition modify (f : State -> State) : M unit :=
  fun w => (mkWorld (f (state w)) (remote w) (trace w), Returned tt).
Definition emit (e : Event) : M unit :=
  fun w => (mkWorld (state w) (remote w) (trace w ++ [e]), Returned tt).

Definition setTransactions (l : list Transaction) : M unit :=
  modify (fun s => mkState l (isLoading s) (error s)).
Definition setIsLoading (b : bool) : M unit :=
  modify (fun s => mkState (transactions s) b (error s)).
Definition setError (e : option string) : M unit :=
  modify (fun s => mkState (transactions s) (isLoading s) e).

(** [await apiClient.get('/transactions')], returning [response.data]. *)
Definition apiClient_get : M (list Transaction) :=
  fun w =>
    let '(r', res) := http_get (remote w) in
    (mkWorld (state w) r' (trace w ++ [RequestGet (state w)]), res).

(** [await apiClient.post('/transactions', payload)] *)
Definition apiClient_post (payload : TransactionPayload) : M Transaction :=
  fun w =>
    let '(r', res) := http_post payload (remote w) in
    (mkWorld (state w) r' (trace w ++ [RequestPost payload (state w)]), res).

(** [getTransactions] of api.ts: any failure is rethrown as a fresh
    [Error]. *)
Definition getTransactions : M (list Transaction) :=
  try_catch apiClient_get
    (fun _ => throw (Error "Failed to fetch transactions from the server.")).

(** [createTransaction] of api.ts *)
Definition createTransaction (payload : TransactionPayload) : M Transaction :=
  try_catch (apiClient_post payload)
    (fun _ => throw (Error "Failed to create the transaction on the server.")).

(** [err.response?.data?.message || err.message || fallback] *)
Definition errorMessage (err : JsError) (fallback : string) : string :=
  match response_message err with
  | Some m => if truthy m then m
              else if truthy (message err) then message err else fallback
  | None => if truthy (message err) then message err else fallback
  end.

(** [fetchTransactions], the store's [load()]. *)
Definition fetchTransactions : M unit :=
  emit CallFetchTransactions ;;
  setIsLoading true ;;
  setError None ;;
  try_finally
    (try_catch
       (fetchedTransactions <- getTransactions ;;
        setTransactions fetchedTransactions)
       (fun err =>
          setError (Some (errorMessage err
            "Failed to load transactions. Please try again later.")) ;;
          setTransactions []))
    (setIsLoading false).

(** [addTransaction], the store's [create(payload)]. *)
Definition addTransaction (transactionData : TransactionPayload) : M unit :=
  emit (CallAddTransaction transactionData) ;;
  setIsLoading true ;;
  try_catch
    (_ <- createTransaction transactionData ;;
     fetchTransactions)
    (fun err =>
       setError (Some (errorMessage err
         "Failed to add transaction. Please try again.")) ;;
       setIsLoading false).

(** The world a computation leaves. *)
Definition exec {A} (c : M A) (w : World) : World := fst (c w).

End Remote.

Arguments mkWorld {R} _ _ _.
Arguments state {R} _.
Arguments remote {R} _.
Arguments trace {R} _.
Arguments exec {R A} _ _.

End Store.

(** ** The transaction form ([components/TransactionForm.tsx]) *)

(** [interface FormErrors]: a field is [Some] when the object owns the key. *)
Module FormErrors.
Record t := mk {
  lender : option string;
  borrower : option string;
  amount : option string;
  form : option string
}.

(** [{}] *)
Definition empty : t := mk None None None None.

Definition set_lender (msg : string) (e : t) : t :=
  mk (Some msg) (borrower e) (amount e) (form e).
Definition set_borrower (msg : string) (e : t) : t :=
  mk (lender e) (Some msg) (amount e) (form e).
Definition set_amount (msg : string) (e : t) : t :=
  mk (lender e) (borrower e) (Some msg) (form e).

(** [Object.keys(e).length] *)
Definition keys_length (e : t) : nat :=
  let count (o : option string) := match o with Some _ => 1%nat | None => 0%nat end in
  (count (lender e) + count (borrower e) + count (amount e) + count (form e))%nat.
End FormErrors.

Module Form.
Import JsString JsNumber.

(** The [useState] cells of the component. *)
Record FormState := mkForm {
  lender : string;
  borrower : string;
  amount : string;
  errors : FormErrors.t;
  isSubmitting : bool
}.

Definition setLender (v : string) (f : FormState) : FormState :=
  mkForm v (borrower f) (amount f) (errors f) (isSubmitting f).
Definition setBorrower (v : string) (f : FormState) : FormState :=
  mkForm (lender f) v (amount f) (errors f) (isSubmitting f).
Definition setAmount (v : string) (f : FormState) : FormState :=
  mkForm (lender f) (borrower f) v (errors f) (isSubmitting f).
Definition setErrors (e : FormErrors.t) (f : FormState) : FormState :=
  mkForm (lender f) (borrower f) (amount f) e (isSubmitting f).
Definition setIsSubmitting (b : bool) (f : FormState) : FormState :=
  mkForm (lender f) (borrower f) (amount f) (errors f) b.

(** [validateForm]: the assignments to [newErrors], in source order. *)
Definition validateForm (f : FormState) : FormErrors.t :=
  let newErrors := FormErrors.empty in
  let trimmedLender := trim (lender f) in
  let trimmedBorrower := trim (borrower f) in
  let newErrors :=
    if negb (truthy trimmedLender)
    then FormErrors.set_lender "Lender name is required." newErrors
    else newErrors in
  let newErrors :=
    if negb (truthy trimmedBorrower)
    then FormErrors.set_borrower "Borrower name is required." newErrors
    else newErrors in
  let newErrors :=
    if truthy trimmedLender && truthy trimmedBorrower &&
       String.eqb (toLowerCase trimmedLender) (toLowerCase trimmedBorrower)
    then FormErrors.set_borrower "Borrower cannot be the same as the lender." newErrors
    else newErrors in
  if negb (truthy (amount f))
  then FormErrors.set_amount "Amount is required." newErrors
  else
    let parsedAmount := parseFloat (amount f) in
    if isNaN parsedAmount || le_zero parsedAmount
    then FormErrors.set_amount "Please enter a valid positive amount." newErrors
    else newErrors.

(** The inputs that the validation has to reject: an amount that does not
    parse to a number or parses to a number that is zero or negative; a name
    that is empty once trimmed; a lender equal to the borrower when case is
    ignored. *)
Definition amount_rejected (a : string) : Prop :=
  isNaN (parseFloat a) = true \/ le_zero (parseFloat a) = true.
Definition names_rejected (l b : string) : Prop :=
  trim l = "" \/ trim b = "" \/ toLowerCase (trim l) = toLowerCase (trim b).
Definition invalid (f : FormState) : Prop :=
  amount_rejected (amount f) \/ names_rejected (lender f) (borrower f).

Section Remote.
Variable R : Type.
Variable http_get : R -> R * Store.outcome (list Transaction).
Variable http_post : TransactionPayload -> R -> R * Store.outcome Transaction.

(** [const { addTransaction } = useTransactions();] *)
Definition addTransaction := Store.addTransaction R http_get http_post.

(** [handleSubmit]: the component state and the world it leaves. *)
Definition handleSubmit (f : FormState) (w : Store.World R)
  : FormState * Store.World R :=
  let validationErrors := validateForm f in
  if (0 <? FormErrors.keys_length validationErrors)%nat
  then (setErrors validationErrors f, w)
  else
    let f1 := setIsSubmitting true (setErrors FormErrors.empty f) in
    let transactionData :=
      Payload.mk (trim (lender f)) (trim (borrower f)) (parseFloat (amount f)) in
    let '(w', r) := addTransaction transactionData w in
    let f2 :=
      match r with
      | Store.Returned _ => setAmount "" (setBorrower "" (setLender "" f1))
      | Store.Thrown error =>
          setErrors
            (FormErrors.mk None None None
               (Some (if truthy (Store.message error) then Store.message error
                      else "Failed to add transaction. Please try again.")))
            f1
      end in
    (setIsSubmitting false f2, w').
End Remote.

End Form.

(** ** A concrete remote service for examples: the stored list and whether
       the service answers. *)

Module Example.
Import Store.

Record Server := mkServer { rows : list Transaction; up : bool }.

Definition axiosError : JsError :=
  mkJsError (Some "Internal Server Error") "Request failed with status code 500".

Definition http_get (r : Server) : Server * outcome (list Transaction) :=
  if up r then (r, Returned (rows r)) else (r, Thrown axiosError).

(** The created record gets its id from the service. *)
Definition http_post (p : TransactionPayload) (r : Server)
  : Server * outcome Transaction :=
  if up r then
    let created :=
      mkTransaction (Some "srv") (Payload.lender p) (Payload.borrower p)
        (Payload.amount p) (Some "2024-01-01T00:00:00Z") in
    (mkServer (rows r ++ [created]) true, Returned created)
  else (r, Thrown axiosError).

Definition world (l : list Transaction) (e : option string) (r : Server)
  : World Server :=
  mkWorld (mkState l false e) r [].

(** A client whose collection is stale: another client has added a row. *)
Definition row1 : Transaction :=
  mkTransaction (Some "1") "A" "B" (JsNumber.of_Z 10) None.
Definition row2 : Transaction :=
  mkTransaction (Some "2") "C" "A" (JsNumber.of_Z 2) None.
Definition payload : TransactionPayload :=
  Payload.mk "B" "C" (JsNumber.of_Z 4).
Definition created : Transaction :=
  mkTransaction (Some "srv") "B" "C" (JsNumber.of_Z 4) (Some "2024-01-01T00:00:00Z").
Definition online : World Server :=
  world [row1] (Some "Failed to fetch transactions from the server.")
    (mkServer [row1; row2] true).
Definition offline : World Server :=
  world [row1] None (mkServer [row1; row2] false).

Definition form (l b a : string) : Form.FormState :=
  Form.mkForm l b a FormErrors.empty false.

End Example.

(** ** The views ([SummaryDisplay.tsx], [TransactionList.tsx], [LedgerPage.tsx],
       [SummaryPage.tsx])

    A view is what the component returns, without its markup: which of its
    alternatives is rendered and with which data.  [Object.entries] lists the
    entries of the summary in insertion order; a [gmap] keeps no such order,
    so the entries come in the order of [map_to_list] and the statements about
    them are about their elements.  [toFixed(2)] is applied to the amounts
    given here.  A comparison of a string with a number converts the string;
    the strings of [Text] convert to not-a-number, which is neither above nor
    below 0. *)

Module Views.
Import JsString JsNumber.

(** [TransactionList]: the empty-state paragraph, or one table row per
    transaction with its lender, borrower and amount cells.  The React key of
    a row is not part of the view. *)
Inductive ListView :=
| NoTransactions
| TransactionTable (rows : list (string * string * number)).

Definition TransactionList (transactions : list Transaction) : ListView :=
  if (length transactions =? 0)%nat then NoTransactions
  else TransactionTable (map (fun t => (lender t, borrower t, amount t)) transactions).

(** [SummaryDisplay]: the empty-state paragraph, or the two lists of entries;
    a section is rendered when its list is not empty. *)
Inductive SummaryView :=
| NoSummaryData
| SummarySections (owedToUser owedByUser : list (string * stored)).

(** [([_, balance]) => balance > 0] and [([_, balance]) => balance < 0] *)
Definition is_owedToUser (entry : string * stored) : bool :=
  match snd entry with
  | Number balance => lt zero balance
  | Text _ => false
  end.
Definition is_owedByUser (entry : string * stored) : bool :=
  match snd entry with
  | Number balance => lt balance zero
  | Text _ => false
  end.

Definition SummaryDisplay (summaries : Summary) : SummaryView :=
  if (size summaries =? 0)%nat then NoSummaryData
  else
    let summaryEntries := map_to_list summaries in
    SummarySections (List.filter is_owedToUser summaryEntries)
                    (List.filter is_owedByUser summaryEntries).

(** The amounts written in the two sections: [balance] under "Who Owes You",
    [Math.abs(balance)] under "Who You Owe".  Only numbers pass the filters. *)
Definition balance_of (entry : string * stored) : number :=
  match snd entry with
  | Number balance => balance
  | Text _ => NaN
  end.
Definition amounts_owedToUser (v : SummaryView) : list number :=
  match v with
  | NoSummaryData => []
  | SummarySections owedToUser _ => map balance_of owedToUser
  end.
Definition amounts_owedByUser (v : SummaryView) : list number :=
  match v with
  | NoSummaryData => []
  | SummarySections _ owedByUser => map (fun entry => abs (balance_of entry)) owedByUser
  end.

(** The sum of a list of integral amounts. *)
Fixpoint sum_list (l : list number) : Z :=
  match l with [] => 0 | x :: r => to_Z x + sum_list r end.

(** [renderContent] of a page: the loading paragraph, the error paragraph
    with its text, or the component of the page.  The test that the imported
    component is defined always passes. *)
Inductive PageView (A : Type) :=
| PageLoading
| PageError (text : string)
| PageContent (content : A).
Arguments PageLoading {A}.
Arguments PageError {A} text.
Arguments PageContent {A} content.

Definition renderContent {A} (prefix : string) (content : A) (s : Store.State)
  : PageView A :=
  if Store.isLoading s then PageLoading
  else
    match Store.error s with
    | Some error => if truthy error then PageError (prefix ++ error) else PageContent content
    | None => PageContent content
    end.

Definition LedgerPage (s : Store.State) : PageView ListView :=
  renderContent "Failed to load transactions: "
    (TransactionList (Store.transactions s)) s.

Definition SummaryPage (s : Store.State) : PageView SummaryView :=
  renderContent "Failed to load summary: "
    (SummaryDisplay (Aggregator.summaries (Store.transactions s))) s.

(** Both pages show their loading paragraph for the state recorded with a
    request. *)
Definition shows_loading (e : Store.Event) : Prop :=
  match e with
  | Store.RequestGet visible | Store.RequestPost _ visible =>
      LedgerPage visible = PageLoading /\ SummaryPage visible = PageLoading
  | _ => True
  end.

End Views.

(** ** Vocabulary for the further properties *)

Module Vocabulary.
Import JsString.

(** The trimmed names of a list of transactions. *)
Definition names (txs : list Transaction) : gset string :=
  list_to_set (flat_map (fun t => [trim (lender t); trim (borrower t)]) txs).

(** The same loan in the other direction (a repayment). *)
Definition reverse (t : Transaction) : Transaction :=
  mkTransaction (_id t) (borrower t) (lender t) (amount t) (createdAt t).

(** The record with both names trimmed. *)
Definition trimmed (t : Transaction) : Transaction :=
  mkTransaction (_id t) (trim (lender t)) (trim (borrower t)) (amount t) (createdAt t).

(** [transactionData] of [handleSubmit] and the form after its success
    branch. *)
Definition transactionData (f : Form.FormState) : TransactionPayload :=
  Payload.mk (trim (Form.lender f)) (trim (Form.borrower f))
    (JsNumber.parseFloat (Form.amount f)).

Definition cleared : Form.FormState := Form.mkForm "" "" "" FormErrors.empty false.

Definition fetch_failed : string := "Failed to fetch transactions from the server.".
Definition create_failed : string := "Failed to create the transaction on the server.".

End Vocabulary.

(** * Properties *)

(** ** Numbers: integers below 2^53 are added and subtracted exactly *)

Section NumberFacts.
Import JsNumber.

Lemma iter_pos_nat {A} (f : A -> A) (p : positive) (x : A) :
  SpecFloat.iter_pos f p x = Nat.iter (Pos.to_nat p) f x.
Proof.
  revert x. induction p as [p IH|p IH|]; intros x; cbn [SpecFloat.iter_pos].
  - rewrite !IH, Pos2Nat.inj_xI.
    replace (S (2 * Pos.to_nat p))%nat
      with (Pos.to_nat p + (Pos.to_nat p + 1))%nat by lia.
    by rewrite !Nat.iter_add.
  - rewrite !IH, Pos2Nat.inj_xO.
    replace (2 * Pos.to_nat p)%nat with (Pos.to_nat p + Pos.to_nat p)%nat by lia.
    by rewrite Nat.iter_add.
  - reflexivity.
Qed.

Lemma Pos_iter_shln (v p : positive) : Pos.iter xO v p = shln v (Pos.to_nat p).
Proof. unfold shln. apply Pos2Nat.inj_iter. Qed.

Lemma shln_add v n m : shln (shln v n) m = shln v (n + m).
Proof. unfold shln. rewrite Nat.add_comm. symmetry. apply Nat.iter_add. Qed.

Lemma shln_digits v n :
  Zpos (digits2_pos (shln v n)) = Zpos (digits2_pos v) + Z.of_nat n.
Proof.
  induction n as [|n IH]; simpl; [lia |].
  change (shln v (S n)) with (xO (shln v n)). simpl. lia.
Qed.

Lemma shln_Z v n : Zpos (shln v n) = Zpos v * 2 ^ Z.of_nat n.
Proof.
  induction n as [|n IH]; [simpl; lia |].
  change (shln v (S n)) with (xO (shln v n)).
  rewrite Nat2Z.inj_succ, Z.pow_succ_r by lia.
  rewrite Pos2Z.inj_xO, IH. lia.
Qed.

Lemma shr_shln w n :
  Nat.iter n shr_1 (Build_shr_record (Zpos (shln w n)) false false)
  = Build_shr_record (Zpos w) false false.
Proof.
  induction n as [|n IH]; [reflexivity |].
  rewrite Nat.iter_succ_r. change (shln w (S n)) with (xO (shln w n)). simpl.
  exact IH.
Qed.

Lemma shr_nat mrs e (j : nat) :
  shr mrs e (Z.of_nat (S j)) = (Nat.iter (S j) shr_1 mrs, e + Z.of_nat (S j)).
Proof.
  change (Z.of_nat (S j)) with (Zpos (Pos.of_succ_nat j)). cbn [shr].
  by rewrite iter_pos_nat, SuccNat2Pos.id_succ.
Qed.

Lemma round_aux_shift s (W : positive) (e0 : Z) (j : nat) :
  Zpos (digits2_pos W) = 53 -> -1074 <= e0 <= 971 ->
  binary_round_aux prec emax s (Zpos (shln W j)) (e0 - Z.of_nat j) loc_Exact
  = S754_finite s W e0.
Proof.
  intros HW He.
  unfold binary_round_aux, shr_fexp, fexp, emin, prec, emax.
  cbn [Zdigits2 shr_record_of_loc]. rewrite shln_digits, HW.
  replace (Z.max (53 + Z.of_nat j + (e0 - Z.of_nat j) - 53) (3 - 1024 - 53)
           - (e0 - Z.of_nat j)) with (Z.of_nat j) by lia.
  assert (Hsecond : forall e, e = e0 ->
     (let '(mrs'', e'') :=
        shr (Build_shr_record (Zpos W) false false) e
          (Z.max (Zdigits2 (Zpos W) + e - 53) (3 - 1024 - 53) - e) in
      match shr_m mrs'' with
      | 0 => S754_zero s
      | Zpos m => if e'' <=? 1024 - 53 then S754_finite s m e'' else S754_infinity s
      | Z.neg _ => S754_nan
      end) = S754_finite s W e0).
  { intros e ->. cbn [Zdigits2]. rewrite HW.
    replace (Z.max (53 + e0 - 53) (3 - 1024 - 53) - e0) with 0 by lia.
    cbn [shr shr_m]. destruct (Z.leb_spec e0 (1024 - 53)); [reflexivity | lia]. }
  destruct j as [|j].
  - cbn [Z.of_nat shr]. change (shln W 0) with W. cbn [shr_m loc_of_shr_record round_nearest_even].
    apply Hsecond. lia.
  - rewrite shr_nat, shr_shln. cbn [shr_m loc_of_shr_record round_nearest_even].
    apply Hsecond. lia.
Qed.

Lemma binary_round_canon s v (k : nat) :
  Zpos (digits2_pos v) <= 53 ->
  binary_round prec emax s (shln v k) (- Z.of_nat k)
  = S754_finite s (shln v (Z.to_nat (53 - Zpos (digits2_pos v))))
      (Zpos (digits2_pos v) - 53).
Proof.
  intros Hd. set (d := Zpos (digits2_pos v)) in *.
  assert (Hd1 : 1 <= d) by (unfold d; lia).
  set (W := shln v (Z.to_nat (53 - d))).
  assert (HW : Zpos (digits2_pos W) = 53).
  { unfold W. rewrite shln_digits. fold d. lia. }
  unfold binary_round, shl_align, fexp, emin, prec, emax.
  rewrite shln_digits. fold d.
  replace (Z.max (d + Z.of_nat k + - Z.of_nat k - 53) (3 - 1024 - 53)) with (d - 53) by lia.
  destruct (d - 53 - - Z.of_nat k) as [|p|p] eqn:Hc.
  - assert (Hk : k = Z.to_nat (53 - d)) by lia.
    replace (- Z.of_nat k) with (d - 53 - Z.of_nat 0) by lia.
    rewrite Hk. fold W. change W with (shln W 0) at 1.
    apply (round_aux_shift s W (d - 53) 0 HW). lia.
  - set (j := Z.to_nat (Zpos p)).
    assert (Hk : k = (Z.to_nat (53 - d) + j)%nat) by lia.
    replace (- Z.of_nat k) with (d - 53 - Z.of_nat j) by lia.
    rewrite Hk, <- shln_add. fold W.
    apply (round_aux_shift s W (d - 53) j HW). lia.
  - rewrite Pos_iter_shln, shln_add.
    replace (k + Pos.to_nat p)%nat with (Z.to_nat (53 - d)) by lia. fold W.
    replace (d - 53) with (d - 53 - Z.of_nat 0) at 1 by lia.
    change W with (shln W 0) at 1.
    apply (round_aux_shift s W (d - 53) 0 HW). lia.
Qed.

Lemma digits_lower (v : positive) : 2 ^ (Zpos (digits2_pos v) - 1) <= Zpos v.
Proof.
  induction v as [v IH|v IH|]; cbn [digits2_pos]; [| | simpl; lia];
    rewrite Pos2Z.inj_succ;
    replace (Z.succ (Zpos (digits2_pos v)) - 1) with (Z.succ (Zpos (digits2_pos v) - 1)) by lia;
    rewrite Z.pow_succ_r by lia; lia.
Qed.

Lemma digits_small (v : positive) : Zpos v < 2 ^ 53 -> Zpos (digits2_pos v) <= 53.
Proof.
  intros Hv. destruct (Z.le_gt_cases (Zpos (digits2_pos v)) 53) as [H|H]; [done |].
  pose proof (digits_lower v) as Hl.
  assert (2 ^ 53 <= 2 ^ (Zpos (digits2_pos v) - 1)) by (apply Z.pow_le_mono_r; lia).
  lia.
Qed.

Lemma normalize_shift (n : Z) (k : nat) :
  Z.abs n < 2 ^ 53 ->
  binary_normalize prec emax (n * 2 ^ Z.of_nat k) (- Z.of_nat k) false = canon n.
Proof.
  intros Hn. destruct n as [|v|v]; [reflexivity | |].
  - rewrite <- shln_Z. cbn [binary_normalize canon].
    apply binary_round_canon, digits_small. lia.
  - change (Zneg v) with (- Zpos v). rewrite Z.mul_opp_l, <- shln_Z.
    cbn [Z.opp binary_normalize canon].
    apply binary_round_canon, digits_small. lia.
Qed.

Lemma of_Z_canon (n : Z) : Z.abs n < 2 ^ 53 -> of_Z n = canon n.
Proof.
  intros Hn. unfold of_Z. rewrite <- (normalize_shift n 0 Hn).
  simpl Z.of_nat. by rewrite Z.pow_0_r, Z.mul_1_r.
Qed.

Lemma shl_align_fst m e e' :
  fst (shl_align m e e') = shln m (Z.to_nat (e - e')).
Proof.
  unfold shl_align. destruct (e' - e) as [|p|p] eqn:H.
  - replace (e - e') with 0 by lia. reflexivity.
  - replace (Z.to_nat (e - e')) with 0%nat by lia. reflexivity.
  - cbn [fst]. rewrite Pos_iter_shln. f_equal. lia.
Qed.

(** The value of a canonical integer, aligned at a lower exponent. *)
Lemma canon_aligned (v : positive) (ez : Z) :
  Zpos (digits2_pos v) <= 53 -> ez <= Zpos (digits2_pos v) - 53 ->
  Zpos (fst (shl_align (shln v (Z.to_nat (53 - Zpos (digits2_pos v))))
                        (Zpos (digits2_pos v) - 53) ez))
  = Zpos v * 2 ^ Z.of_nat (Z.to_nat (- ez)).
Proof.
  intros Hd He. rewrite shl_align_fst, shln_add, shln_Z.
  assert (H : (Z.to_nat (53 - Zpos (digits2_pos v))
               + Z.to_nat (Zpos (digits2_pos v) - 53 - ez))%nat = Z.to_nat (- ez)).
  { revert Hd He. generalize (Zpos (digits2_pos v)). intros. lia. }
  by rewrite H.
Qed.

Lemma add_canon (x y : Z) :
  Z.abs x < 2 ^ 53 -> Z.abs y < 2 ^ 53 -> Z.abs (x + y) < 2 ^ 53 ->
  add (canon x) (canon y) = canon (x + y).
Proof.
  intros Hx Hy Hxy.
  destruct x as [|vx|vx]; [by destruct y | |];
    (destruct y as [|vy|vy]; [by rewrite Z.add_0_r | |]);
    cbn [canon]; unfold add; cbn [SFadd cond_Zopp];
    pose proof (digits_small vx ltac:(lia)) as Hdx;
    pose proof (digits_small vy ltac:(lia)) as Hdy;
    set (ez := Z.min (Zpos (digits2_pos vx) - 53) (Zpos (digits2_pos vy) - 53));
    assert (Hez : ez <= Zpos (digits2_pos vx) - 53 /\ ez <= Zpos (digits2_pos vy) - 53)
      by (unfold ez; lia);
    clearbody ez;
    rewrite !canon_aligned by lia;
    rewrite <- ?Z.mul_opp_l, <- Z.mul_add_distr_r;
    replace ez with (- Z.of_nat (Z.to_nat (- ez))) at 2 by lia;
    apply normalize_shift; exact Hxy.
Qed.

Lemma sub_canon (x y : Z) :
  Z.abs x < 2 ^ 53 -> Z.abs y < 2 ^ 53 -> Z.abs (x - y) < 2 ^ 53 ->
  sub (canon x) (canon y) = canon (x - y).
Proof.
  intros Hx Hy Hxy.
  destruct x as [|vx|vx]; [by destruct y | |];
    (destruct y as [|vy|vy]; [by rewrite Z.sub_0_r | |]);
    cbn [canon]; unfold sub; cbn [SFsub cond_Zopp];
    pose proof (digits_small vx ltac:(lia)) as Hdx;
    pose proof (digits_small vy ltac:(lia)) as Hdy;
    set (ez := Z.min (Zpos (digits2_pos vx) - 53) (Zpos (digits2_pos vy) - 53));
    assert (Hez : ez <= Zpos (digits2_pos vx) - 53 /\ ez <= Zpos (digits2_pos vy) - 53)
      by (unfold ez; lia);
    clearbody ez;
    rewrite !canon_aligned by lia;
    rewrite <- ?Z.mul_opp_l, <- Z.mul_sub_distr_r;
    replace ez with (- Z.of_nat (Z.to_nat (- ez))) at 2 by lia;
    apply normalize_shift; exact Hxy.
Qed.

Lemma add_of_Z (x y : Z) :
  Z.abs x < 2 ^ 53 -> Z.abs y < 2 ^ 53 -> Z.abs (x + y) < 2 ^ 53 ->
  add (of_Z x) (of_Z y) = of_Z (x + y).
Proof. intros. rewrite !of_Z_canon by done. by apply add_canon. Qed.

Lemma sub_of_Z (x y : Z) :
  Z.abs x < 2 ^ 53 -> Z.abs y < 2 ^ 53 -> Z.abs (x - y) < 2 ^ 53 ->
  sub (of_Z x) (of_Z y) = of_Z (x - y).
Proof. intros. rewrite !of_Z_canon by done. by apply sub_canon. Qed.

Lemma to_Z_canon (n : Z) : Z.abs n < 2 ^ 53 -> to_Z (canon n) = n.
Proof.
  intros Hn.
  assert (Hpos : forall v, Zpos v < 2 ^ 53 ->
            (if 0 <=? Zpos (digits2_pos v) - 53
             then Zpos (shln v (Z.to_nat (53 - Zpos (digits2_pos v))))
                  * 2 ^ (Zpos (digits2_pos v) - 53)
             else Zpos (shln v (Z.to_nat (53 - Zpos (digits2_pos v))))
                  / 2 ^ (- (Zpos (digits2_pos v) - 53))) = Zpos v).
  { intros v Hv. pose proof (digits_small v Hv) as Hd. rewrite shln_Z.
    generalize dependent (Zpos (digits2_pos v)). intros d Hd.
    destruct (Z.leb_spec 0 (d - 53)).
    - replace d with 53 by lia. change (53 - 53) with 0.
      change (Z.of_nat (Z.to_nat 0)) with 0. rewrite Z.pow_0_r. lia.
    - rewrite Z2Nat.id by lia. replace (- (d - 53)) with (53 - d) by lia.
      apply Z.div_mul. apply Z.pow_nonzero; lia. }
  destruct n as [|v|v]; [reflexivity | |]; cbn [canon to_Z]; rewrite Hpos; lia.
Qed.

Lemma to_Z_of_Z (n : Z) : Z.abs n < 2 ^ 53 -> to_Z (of_Z n) = n.
Proof. intros Hn. rewrite of_Z_canon by done. by apply to_Z_canon. Qed.

Lemma of_Z_positive (n : Z) : Z.abs n < 2 ^ 53 -> lt zero (of_Z n) = true <-> 0 < n.
Proof.
  intros Hn. rewrite of_Z_canon by done. destruct n; cbn; split; (done || lia).
Qed.

Lemma of_Z_negative (n : Z) : Z.abs n < 2 ^ 53 -> lt (of_Z n) zero = true <-> n < 0.
Proof.
  intros Hn. rewrite of_Z_canon by done. destruct n; cbn; split; (done || lia).
Qed.

Lemma abs_of_Z (n : Z) : Z.abs n < 2 ^ 53 -> abs (of_Z n) = of_Z (Z.abs n).
Proof.
  intros Hn. rewrite !of_Z_canon by lia.
  by destruct n.
Qed.

End NumberFacts.

Section NumberExamples.
Import JsNumber.

(** [parseFloat] gives the double nearest to the literal: a tenth is not
    exact, a literal below the smallest double is 0, one above the largest
    is Infinity, and an integer above 2^53 is rounded to an even mantissa. *)
Example parseFloat_rounds :
  parseFloat "0.1" = S754_finite false 7205759403792794 (-56) /\
  parseFloat "1e-400" = zero /\
  parseFloat "1e400" = S754_infinity false /\
  parseFloat "9007199254740993" = of_Z (2 ^ 53) /\
  parseFloat "  12.50abc" = S754_finite false 7036874417766400 (-49) /\
  parseFloat "abc" = NaN.
Proof. repeat split; by vm_compute. Qed.

(** Addition rounds as well: 0.1 + 0.2 is not 0.3, and adding 1 to 2^53
    changes nothing. *)
Example add_rounds :
  add (parseFloat "0.1") (parseFloat "0.2") <> parseFloat "0.3" /\
  add (of_Z (2 ^ 53)) (of_Z 1) = of_Z (2 ^ 53).
Proof. split; [vm_compute; discriminate | by vm_compute]. Qed.

End NumberExamples.

(** Closes [Some a = Some b] when [a = b] is linear arithmetic. *)
Ltac some_lia := apply (f_equal Some); lia.

(** ** The ledger over the integers *)

Section IdealFacts.
Import JsString Aggregator Ideal.

Lemma init_if_absent_lookup k (m : gmap string Z) j :
  init_if_absent k m !! j = if decide (k = j) then Some (default 0 (m !! j)) else m !! j.
Proof.
  unfold init_if_absent. destruct (m !! k) eqn:Hk; case_decide; subst;
    simplify_map_eq; done.
Qed.

(** One step, entry by entry. *)
Lemma step_lookup (m : gmap string Z) t k :
  step m t !! k =
    match m !! k with
    | Some v => Some (v + borrowed k t - lent k t)
    | None =>
        if decide (trim (lender t) = k \/ trim (borrower t) = k)
        then Some (borrowed k t - lent k t) else None
    end.
Proof.
  unfold step, lent, borrowed.
  generalize (trim (lender t)) (trim (borrower t)) (units t); intros l b a.
  rewrite !lookup_alter, !init_if_absent_lookup.
  destruct (m !! k) as [v|] eqn:Hk;
    repeat case_decide; subst; simpl; rewrite ?Hk; simpl;
    try some_lia; try done; try tauto.
Qed.

Lemma foldl_step_lookup (txs : list Transaction) (m : gmap string Z) k :
  foldl step m txs !! k =
    match m !! k with
    | Some v => Some (v + sum_borrowed k txs - sum_lent k txs)
    | None =>
        if decide (is_lender k txs \/ is_borrower k txs)
        then Some (sum_borrowed k txs - sum_lent k txs) else None
    end.
Proof.
  unfold is_lender, is_borrower. revert m.
  induction txs as [|t txs IH]; intros m; simpl.
  - destruct (m !! k); [some_lia | done].
  - rewrite IH, step_lookup. destruct (m !! k) as [v|]; [some_lia |].
    destruct (decide (trim (lender t) = k \/ trim (borrower t) = k)) as [Ht|Ht].
    + rewrite decide_True; [some_lia |].
      rewrite !Exists_cons. tauto.
    + assert (lent k t = 0 /\ borrowed k t = 0) as [-> ->].
      { unfold lent, borrowed. by rewrite !decide_False by tauto. }
      repeat case_decide; try some_lia; try done;
        exfalso; rewrite !Exists_cons in *; tauto.
Qed.

Lemma balances_lookup (txs : list Transaction) k :
  balances txs !! k =
    if decide (is_lender k txs \/ is_borrower k txs)
    then Some (sum_borrowed k txs - sum_lent k txs) else None.
Proof. unfold balances. by rewrite foldl_step_lookup, lookup_empty. Qed.





Lemma sums_permutation k (l1 l2 : list Transaction) :
  Permutation l1 l2 ->
  sum_lent k l1 = sum_lent k l2 /\ sum_borrowed k l1 = sum_borrowed k l2.
Proof. induction 1; simpl; lia. Qed.

Lemma roles_permutation k (l1 l2 : list Transaction) :
  Permutation l1 l2 ->
  (is_lender k l1 <-> is_lender k l2) /\ (is_borrower k l1 <-> is_borrower k l2).
Proof.
  intros Hp. unfold is_lender, is_borrower. rewrite !Exists_exists.
  split; split; intros (t & Hin & Ht); exists t; split; try done;
    first [by rewrite <- Hp | by rewrite Hp].
Qed.

Lemma volume_permutation (l1 l2 : list Transaction) :
  Permutation l1 l2 -> volume l1 = volume l2.
Proof. induction 1; simpl; lia. Qed.

Lemma volume_app (l1 l2 : list Transaction) :
  volume (l1 ++ l2) = volume l1 + volume l2.
Proof. induction l1 as [|t l1 IH]; simpl; lia. Qed.

Lemma volume_nonneg (txs : list Transaction) : 0 <= volume txs.
Proof. induction txs as [|t txs IH]; simpl; lia. Qed.

(** No balance exceeds the volume of the list. *)
Lemma balance_bound k txs :
  Z.abs (sum_borrowed k txs - sum_lent k txs) <= volume txs.
Proof.
  induction txs as [|t txs IH]; simpl; [lia |].
  unfold borrowed, lent. repeat case_decide; lia.
Qed.

(** Sum of the balances after one write. *)
Lemma total_insert k v (m : gmap string Z) :
  total (<[k := v]> m) = v + total m - default 0 (m !! k).
Proof.
  unfold total. destruct (m !! k) as [old|] eqn:Hk; simpl.
  - rewrite <- (insert_delete_eq m k v).
    rewrite map_fold_insert_L; [| intros; lia | apply lookup_delete_eq].
    rewrite (map_fold_delete_L _ _ k old m); [lia | intros; lia | done].
  - rewrite map_fold_insert_L; [lia | intros; lia | done].
Qed.

Lemma total_step (m : gmap string Z) t : total (step m t) = total m.
Proof.
  assert (Hinit : forall k (o : gmap string Z), total (init_if_absent k o) = total o).
  { intros k o. unfold init_if_absent. destruct (o !! k) eqn:Hk; [done |].
    rewrite total_insert, Hk. simpl. lia. }
  assert (Halter : forall (f : Z -> Z) k (o : gmap string Z) v,
             o !! k = Some v -> total (alter f k o) = total o + f v - v).
  { intros f k o v Hk.
    assert (alter f k o = <[k := f v]> o) as ->.
    { apply map_eq; intros j. rewrite lookup_alter, lookup_insert.
      case_decide; subst; [by rewrite Hk | done]. }
    rewrite total_insert, Hk. simpl. lia. }
  unfold step.
  generalize (trim (lender t)) (trim (borrower t)) (units t); intros l b a.
  set (m2 := init_if_absent b (init_if_absent l m)).
  assert (Hm2 : total m2 = total m) by (unfold m2; by rewrite !Hinit).
  assert (Hl : is_Some (m2 !! l)).
  { unfold m2. rewrite !init_if_absent_lookup. repeat case_decide; eauto; congruence. }
  destruct Hl as [vl Hvl].
  assert (Hb : is_Some (alter (fun v => v - a) l m2 !! b)).
  { rewrite lookup_alter. unfold m2. rewrite !init_if_absent_lookup.
    repeat case_decide; simpl; eauto; congruence. }
  destruct Hb as [vb Hvb].
  rewrite (Halter _ b _ vb Hvb), (Halter _ l _ vl Hvl). lia.
Qed.

Lemma total_balances txs : total (balances txs) = 0.
Proof.
  unfold balances.
  assert (H : forall m, total (foldl step m txs) = total m).
  { induction txs as [|t txs IH]; intros m; simpl; [done |].
    by rewrite IH, total_step. }
  rewrite H. apply map_fold_empty.
Qed.

End IdealFacts.

(** ** The balance summary, one name at a time *)

Section AggregatorFacts.
Import JsString JsNumber JsObject Aggregator.


Lemma get_getk (o : Summary) k : get o k = getk k (o !! k).
Proof. reflexivity. Qed.

Lemma set_lookup j v (o : Summary) k :
  set j v o !! k = if decide (j = k) then setk k v (o !! k) else o !! k.
Proof.
  unfold set, setk. case_decide as Hj.
  - subst j. destruct (String.eqb k "__proto__"); [done |].
    by rewrite lookup_insert_eq.
  - destruct (String.eqb j "__proto__"); [done |]. by rewrite lookup_insert_ne.
Qed.

Lemma init_if_undefined_lookup j (o : Summary) k :
  init_if_undefined j o !! k = if decide (j = k) then key_init k (o !! k) else o !! k.
Proof.
  unfold init_if_undefined, key_init. rewrite get_getk. case_decide as Hj.
  - subst j. destruct (getk k (o !! k)); try done.
    by rewrite set_lookup, decide_True.
  - destruct (getk j (o !! j)); try done. by rewrite set_lookup, decide_False.
Qed.

(** One round of the loop, seen from the name [k]. *)
Lemma body_lookup (m : Summary) t k : body m t !! k = key_step k t (m !! k).
Proof.
  unfold body, key_step, sub_assign, add_assign.
  generalize (trim (lender t)) (trim (borrower t)) (amount t); intros l b a.
  rewrite !set_lookup, !get_getk.
  destruct (decide (l = k)) as [->|Hl]; destruct (decide (b = k)) as [->|Hb];
    rewrite ?set_lookup, ?init_if_undefined_lookup, ?get_getk,
      ?decide_True, ?decide_False by done;
    rewrite ?set_lookup, ?init_if_undefined_lookup, ?get_getk,
      ?decide_True, ?decide_False by done;
    reflexivity.
Qed.

(** The whole loop, seen from the name [k]. *)
Lemma forEach_body_lookup (txs : list Transaction) (m : Summary) k :
  forEach body txs m !! k = foldl (fun o t => key_step k t o) (m !! k) txs.
Proof.
  revert m. induction txs as [|t txs IH]; intros m; simpl; [done |].
  by rewrite IH, body_lookup.
Qed.

Lemma summaries_lookup_fold (txs : list Transaction) k :
  summaries txs !! k = foldl (fun o t => key_step k t o) None txs.
Proof. unfold summaries. by rewrite forEach_body_lookup, lookup_empty. Qed.

Lemma plain_not_proto k : plain k -> String.eqb k "__proto__" = false.
Proof.
  unfold plain. intros Hk. destruct (String.eqb_spec k "__proto__") as [->|]; [| done].
  by vm_compute in Hk.
Qed.

Lemma setk_plain k v o : k <> "__proto__"%string -> setk k v o = Some v.
Proof.
  intros Hk. unfold setk. by destruct (String.eqb_spec k "__proto__").
Qed.

Lemma key_step_proto t o : key_step "__proto__" t o = o.
Proof.
  unfold key_step, key_init, setk. cbn [String.eqb Ascii.eqb Bool.eqb].
  repeat case_decide;
    repeat match goal with |- context [getk ?k ?x] => destruct (getk k x) end;
    reflexivity.
Qed.

Lemma key_step_other k t o :
  trim (lender t) <> k -> trim (borrower t) <> k -> key_step k t o = o.
Proof. intros Hl Hb. unfold key_step. by rewrite !decide_False by done. Qed.

Lemma key_step_occurs k t o :
  k <> "__proto__"%string -> trim (lender t) = k \/ trim (borrower t) = k ->
  is_Some (key_step k t o).
Proof.
  intros Hk Hocc. unfold key_step.
  destruct (decide (trim (borrower t) = k)) as [Hb|Hb].
  - rewrite setk_plain by done. eauto.
  - destruct (decide (trim (lender t) = k)) as [Hl|Hl]; [| tauto].
    rewrite setk_plain by done. eauto.
Qed.

(** A name gets an own property when it occurs, unless it is [__proto__]. *)
Lemma key_step_is_Some k t o :
  is_Some (key_step k t o) <->
  is_Some o \/ ((trim (lender t) = k \/ trim (borrower t) = k) /\ k <> "__proto__"%string).
Proof.
  destruct (decide (k = "__proto__"%string)) as [->|Hk].
  - rewrite key_step_proto. tauto.
  - destruct (decide (trim (lender t) = k \/ trim (borrower t) = k)) as [Hocc|Hocc].
    + pose proof (key_step_occurs k t o Hk Hocc). tauto.
    + rewrite key_step_other by tauto. tauto.
Qed.

Lemma foldl_key_step_is_Some k txs o :
  is_Some (foldl (fun o t => key_step k t o) o txs) <->
  is_Some o \/ ((is_lender k txs \/ is_borrower k txs) /\ k <> "__proto__"%string).
Proof.
  unfold is_lender, is_borrower. revert o.
  induction txs as [|t txs IH]; intros o; simpl.
  - rewrite !Exists_nil. tauto.
  - rewrite IH, key_step_is_Some, !Exists_cons. tauto.
Qed.

(** With integral amounts within the volume, a plain name holds the number
    of its integer balance. *)
Lemma key_step_exact k t (oz : option Z) (P : Z) :
  plain k -> integral t ->
  (forall z, oz = Some z -> Z.abs z <= P) -> 0 <= P ->
  P + Z.abs (units t) < 2 ^ 53 ->
  key_step k t (as_number <$> oz) = as_number <$> Ideal.key_step k t oz /\
  (forall z, Ideal.key_step k t oz = Some z -> Z.abs z <= P + Z.abs (units t)).
Proof.
  intros Hplain Hint Hbound HP Hvol.
  pose proof (plain_not_proto k Hplain) as Hproto. unfold plain in Hplain.
  unfold key_step, Ideal.key_step, key_init, setk, Ideal.borrowed, Ideal.lent.
  rewrite Hproto. red in Hint. rewrite Hint.
  generalize dependent (units t). intros u _ Hvol.
  generalize (trim (lender t)) (trim (borrower t)); intros l b.
  assert (Hzero : Number zero = as_number 0) by reflexivity.
  assert (Hsub : forall z, Z.abs z <= P ->
            minus (Own (as_number z)) (of_Z u) = as_number (z - u)).
  { intros z Hz. unfold minus, as_number. cbn [ToNumber].
    by rewrite sub_of_Z by lia. }
  assert (Hadd : forall z, Z.abs z <= P + Z.abs u -> Z.abs (z + u) <= P + Z.abs u ->
            plus (Own (as_number z)) (of_Z u) = as_number (z + u)).
  { intros z Hz Hzu. unfold plus, as_number. by rewrite add_of_Z by lia. }
  destruct oz as [z|]; cbn [fmap option_fmap option_map getk]; rewrite ?Hplain;
    [specialize (Hbound z eq_refl) |];
    destruct (decide (l = k)) as [Hl|Hl]; destruct (decide (b = k)) as [Hb|Hb];
    cbn [getk]; rewrite ?Hplain, ?Hzero; cbn [getk];
    rewrite ?Hsub by lia; cbn [getk]; rewrite ?Hadd by lia;
    rewrite ?decide_True by tauto; rewrite ?decide_False by tauto;
    (split; [unfold as_number; cbn; repeat f_equal; lia
            | intros ? [= <-]; lia || done]).
Qed.

Lemma foldl_key_step_exact k txs (oz : option Z) (P : Z) :
  plain k -> Forall integral txs ->
  (forall z, oz = Some z -> Z.abs z <= P) -> 0 <= P ->
  P + volume txs < 2 ^ 53 ->
  foldl (fun o t => key_step k t o) (as_number <$> oz) txs
  = as_number <$> foldl (fun oz t => Ideal.key_step k t oz) oz txs.
Proof.
  intros Hplain Hint. revert oz P.
  induction Hint as [|t txs Ht Htxs IH]; intros oz P Hbound HP Hvol; [done |].
  cbn [foldl volume] in *.
  pose proof (volume_nonneg txs).
  destruct (key_step_exact k t oz P Hplain Ht Hbound HP ltac:(lia)) as [-> Hb'].
  apply (IH _ (P + Z.abs (units t))); [done | lia | lia].
Qed.

Lemma ideal_foldl_lookup k txs (m : gmap string Z) :
  foldl Ideal.step m txs !! k = foldl (fun oz t => Ideal.key_step k t oz) (m !! k) txs.
Proof.
  revert m. induction txs as [|t txs IH]; intros m; simpl; [done |].
  by rewrite IH, step_lookup.
Qed.

(** The summary at a plain name, for amounts that cannot round. *)
Lemma summaries_lookup_exact (txs : list Transaction) (k : string) :
  exact_amounts txs -> plain k ->
  summaries txs !! k = as_number <$> Ideal.balances txs !! k.
Proof.
  intros [Hint Hvol] Hplain.
  rewrite summaries_lookup_fold. unfold Ideal.balances.
  rewrite ideal_foldl_lookup, lookup_empty.
  apply (foldl_key_step_exact k txs None 0); done.
Qed.

End AggregatorFacts.

(** ** The balance summary: the claims *)

Section AggregatorTheorems.
Import JsString JsNumber JsObject Aggregator.

Lemma occurs_plain k txs :
  plain_names txs -> is_lender k txs \/ is_borrower k txs -> plain k.
Proof.
  unfold plain_names, is_lender, is_borrower. rewrite !Exists_exists, Forall_forall.
  intros Hall [(t & Hin & <-)|(t & Hin & <-)]; by apply (Hall t Hin).
Qed.

(** For amounts that cannot round and plain names, the summary is the ledger
    over the integers, every balance stored as its number. *)
Lemma summaries_exact (txs : list Transaction) :
  exact_amounts txs -> plain_names txs ->
  summaries txs = as_number <$> Ideal.balances txs.
Proof.
  intros Hexact Hplain. apply map_eq; intros k. rewrite lookup_fmap.
  destruct (decide (is_lender k txs \/ is_borrower k txs)) as [Hocc|Hocc].
  - apply summaries_lookup_exact; [done |]. by apply (occurs_plain k txs).
  - rewrite balances_lookup, decide_False by done. simpl.
    apply eq_None_not_Some. rewrite summaries_lookup_fold, foldl_key_step_is_Some.
    intros [[? ?]|[? _]]; done.
Qed.

Lemma exact_amounts_permutation (l1 l2 : list Transaction) :
  Permutation l1 l2 -> exact_amounts l1 -> exact_amounts l2.
Proof.
  intros Hp [Hint Hvol]. split; [by rewrite <- Hp |].
  by rewrite <- (volume_permutation _ _ Hp).
Qed.

Lemma balances_permutation (l1 l2 : list Transaction) :
  Permutation l1 l2 -> Ideal.balances l1 = Ideal.balances l2.
Proof.
  intros Hp. apply map_eq; intros k. rewrite !balances_lookup.
  destruct (sums_permutation k _ _ Hp) as [-> ->].
  destruct (roles_permutation k _ _ Hp) as [Hl Hb].
  repeat case_decide; try done; tauto.
Qed.

Lemma balance_small k txs z :
  volume txs < 2 ^ 53 -> Ideal.balances txs !! k = Some z -> Z.abs z < 2 ^ 53.
Proof.
  intros Hvol. rewrite balances_lookup. case_decide; [| done].
  intros [= <-]. pose proof (balance_bound k txs). lia.
Qed.

Lemma total_as_number (mz : gmap string Z) :
  (forall k z, mz !! k = Some z -> Z.abs z < 2 ^ 53) ->
  total (as_number <$> mz) = Ideal.total mz.
Proof.
  unfold total, Ideal.total.
  induction mz as [|k z mz Hk IH] using map_ind; intros Hsmall.
  - by rewrite fmap_empty, !map_fold_empty.
  - rewrite fmap_insert.
    rewrite map_fold_insert_L; [| intros; lia | by rewrite lookup_fmap, Hk].
    rewrite (map_fold_insert_L _ _ k z mz); [| intros; lia | done].
    rewrite IH.
    + unfold as_number at 1. cbn [units_of].
      rewrite to_Z_of_Z; [done |]. apply (Hsmall k). by rewrite lookup_insert_eq.
    + intros j y Hj. apply (Hsmall j). rewrite lookup_insert_ne; [done |].
      intros ->. congruence.
Qed.

(** The step of the loop on plain names is the step of the specified fold. *)
Lemma body_aggregate_step (mz : gmap string number) (t : Transaction) :
  plain (trim (lender t)) -> plain (trim (borrower t)) ->
  body (Number <$> mz) t = Number <$> aggregate_step mz t.
Proof.
  intros Hl Hb. apply map_eq; intros k.
  rewrite body_lookup, !lookup_fmap. unfold aggregate_step, key_step, key_init.
  generalize dependent (trim (lender t)). generalize dependent (trim (borrower t)).
  generalize (amount t). intros a b Hb l Hl.
  rewrite !lookup_alter. unfold ensure_key. rewrite !lookup_partial_alter.
  destruct (decide (l = k)) as [->|Hlk]; destruct (decide (b = k)) as [Hbk|Hbk];
    try subst b;
    rewrite ?setk_plain by (intros ->; by vm_compute in Hl || by vm_compute in Hb);
    cbn [getk]; rewrite ?decide_True, ?decide_False by done;
    rewrite ?lookup_partial_alter, ?decide_True, ?decide_False by done;
    destruct (mz !! k) as [x|]; cbn [fmap option_fmap option_map getk default];
    rewrite ?Hl, ?Hb; cbn [getk];
    rewrite ?setk_plain by (intros ->; by vm_compute in Hl || by vm_compute in Hb);
    reflexivity.
Qed.

Lemma summaries_fold_plain (txs : list Transaction) :
  plain_names txs -> summaries txs = Number <$> aggregate_fold txs.
Proof.
  unfold summaries, aggregate_fold, plain_names. intros Hplain.
  replace (∅ : Summary) with (Number <$> (∅ : gmap string number))
    by apply fmap_empty.
  generalize (∅ : gmap string number).
  induction Hplain as [|t txs [Hl Hb] _ IH]; intros m; simpl; [done |].
  by rewrite body_aggregate_step, IH.
Qed.

(** C1: on lists whose trimmed names are not property names inherited from
    [Object.prototype], the [summaries] of the source is the fold of the
    specification, and one transaction A -> B of 10 gives [{A: -10, B: 10}];
    names differing only in case are different keys.  On an inherited name the
    code leaves the fold: a lender named "constructor" ends at not-a-number
    where the fold has -10, and "__proto__" gets no key at all. *)
Theorem summaries_is_specified_fold :
  (forall txs, plain_names txs -> summaries txs = Number <$> aggregate_fold txs) /\
  summaries [tx "A" "B" 10] = {[ "A" := as_number (-10); "B" := as_number 10 ]} /\
  summaries [tx " Bob " "bob" 5] = {[ "Bob" := as_number (-5); "bob" := as_number 5 ]} /\
  summaries [tx "constructor" "B" 10] = {[ "constructor" := Number NaN; "B" := as_number 10 ]} /\
  aggregate_fold [tx "constructor" "B" 10] = {[ "constructor" := of_Z (-10); "B" := of_Z 10 ]} /\
  summaries [tx "__proto__" "Bob" 5] = {[ "Bob" := as_number 5 ]} /\
  aggregate_fold [tx "__proto__" "Bob" 5] = {[ "__proto__" := of_Z (-5); "Bob" := of_Z 5 ]}.
Proof.
  split; [exact summaries_fold_plain |].
  repeat split; by vm_compute.
Qed.

(** C2, as the code has it: for valid transactions whose amounts are integers
    with absolute values summing to less than 2^53 and whose trimmed names are
    not inherited property names, every value of [summaries] is an integer and
    the values sum to zero. *)
Theorem summaries_conservation (txs : list Transaction) :
  Forall valid txs -> exact_amounts txs -> plain_names txs ->
  integral_values (summaries txs) /\ total (summaries txs) = 0.
Proof.
  intros _ Hexact Hplain. rewrite (summaries_exact txs Hexact Hplain).
  destruct Hexact as [_ Hvol]. split.
  - intros k v. rewrite lookup_fmap.
    destruct (Ideal.balances txs !! k) as [z|] eqn:Hz; [| done].
    intros [= <-]. unfold as_number. cbn [units_of].
    rewrite to_Z_of_Z; [done |]. by apply (balance_small k txs).
  - rewrite total_as_number; [apply total_balances |].
    intros k z. by apply balance_small.
Qed.

Lemma summaries_conservation_witness :
  total (summaries [tx "A" "B" 10; tx "B" "C" 4]) = 0.
Proof.
  assert (Hvalid : Forall valid [tx "A" "B" 10; tx "B" "C" 4]).
  { repeat constructor; discriminate. }
  assert (Hexact : exact_amounts [tx "A" "B" 10; tx "B" "C" 4]).
  { split; [repeat constructor | reflexivity]. }
  assert (Hplain : plain_names [tx "A" "B" 10; tx "B" "C" 4]).
  { repeat constructor. }
  exact (proj2 (summaries_conservation _ Hvalid Hexact Hplain)).
Defined.

(** C2 as stated fails where an addition rounds: with the valid records
    A -> B of 2^53 and A -> C of 1, A ends at -2^53 and the values sum to 1. *)
Lemma conservation_fails_when_rounding :
  Forall valid [tx "A" "B" (2 ^ 53); tx "A" "C" 1] /\
  summaries [tx "A" "B" (2 ^ 53); tx "A" "C" 1]
  = {[ "A" := as_number (- 2 ^ 53); "B" := as_number (2 ^ 53); "C" := as_number 1 ]} /\
  total (summaries [tx "A" "B" (2 ^ 53); tx "A" "C" 1]) = 1.
Proof.
  split; [repeat constructor; discriminate |].
  split; by vm_compute.
Qed.

(** C7, as the code has it: a permutation of the list gives a summary with
    the same keys, and with the same values when the amounts are integers
    with absolute values summing to less than 2^53 and the trimmed names are
    not inherited property names. *)
Theorem summaries_permutation (txs txs' : list Transaction) :
  Permutation txs txs' ->
  dom (summaries txs) = dom (summaries txs') /\
  (exact_amounts txs -> plain_names txs -> summaries txs = summaries txs').
Proof.
  intros Hp. split.
  - apply set_eq; intros k.
    rewrite !elem_of_dom, !summaries_lookup_fold, !foldl_key_step_is_Some.
    destruct (roles_permutation k _ _ Hp) as [Hl Hb]. tauto.
  - intros Hexact Hplain.
    rewrite (summaries_exact txs Hexact Hplain).
    rewrite (summaries_exact txs').
    + by rewrite (balances_permutation _ _ Hp).
    + by apply (exact_amounts_permutation txs).
    + unfold plain_names in *. by rewrite <- Hp.
Qed.

Lemma summaries_permutation_witness :
  summaries [tx "A" "B" 10; tx "B" "C" 4; tx "C" "A" 1] =
  summaries [tx "C" "A" 1; tx "A" "B" 10; tx "B" "C" 4].
Proof.
  assert (Hp : Permutation [tx "A" "B" 10; tx "B" "C" 4; tx "C" "A" 1]
                           [tx "C" "A" 1; tx "A" "B" 10; tx "B" "C" 4]).
  { apply Permutation_sym.
    exact (Permutation_cons_append [tx "A" "B" 10; tx "B" "C" 4] (tx "C" "A" 1)). }
  apply (proj2 (summaries_permutation _ _ Hp)).
  - split; [repeat constructor | reflexivity].
  - repeat constructor.
Defined.

(** C7 as stated fails where an addition rounds, and where a string is built
    on an inherited name: the order of the list shows in the value. *)
Lemma permutation_changes_values :
  (Permutation [tx "A" "B" (2 ^ 53); tx "A" "B" 1; tx "A" "B" 1]
               [tx "A" "B" 1; tx "A" "B" 1; tx "A" "B" (2 ^ 53)] /\
   summaries [tx "A" "B" (2 ^ 53); tx "A" "B" 1; tx "A" "B" 1] !! "B"
   = Some (as_number (2 ^ 53)) /\
   summaries [tx "A" "B" 1; tx "A" "B" 1; tx "A" "B" (2 ^ 53)] !! "B"
   = Some (as_number (2 ^ 53 + 2)) /\
   as_number (2 ^ 53) <> as_number (2 ^ 53 + 2)) /\
  (Permutation [tx "A" "toString" 1; tx "A" "toString" 2]
               [tx "A" "toString" 2; tx "A" "toString" 1] /\
   summaries [tx "A" "toString" 1; tx "A" "toString" 2] !! "toString"
   = Some (Text [of_Z 1; of_Z 2]) /\
   summaries [tx "A" "toString" 2; tx "A" "toString" 1] !! "toString"
   = Some (Text [of_Z 2; of_Z 1])).
Proof.
  split; split.
  - exact (Permutation_cons_append [tx "A" "B" 1; tx "A" "B" 1] (tx "A" "B" (2 ^ 53))).
  - repeat split; by vm_compute.
  - apply perm_swap.
  - split; by vm_compute.
Qed.







End AggregatorTheorems.

(** ** The transaction store *)

Section StoreTheorems.
Import Store.

Variable R : Type.
Variable http_get : R -> R * outcome (list Transaction).
Variable http_post : TransactionPayload -> R -> R * outcome Transaction.

Local Abbreviation load := (fetchTransactions R http_get).
Local Abbreviation create := (addTransaction R http_get http_post).

(** [fetchTransactions] run to completion: it always returns, and the world
    it leaves depends on the answer to its one request. *)
Lemma fetchTransactions_run (w : World R) :
  load w =
    let events := [CallFetchTransactions; RequestGet (loading_state (state w))] in
    match http_get (remote w) with
    | (r', Returned fetched) =>
        (mkWorld (mkState fetched false None) r' (trace w ++ events), Returned tt)
    | (r', Thrown _) =>
        (mkWorld
           (mkState [] false (Some "Failed to fetch transactions from the server."))
           r' (trace w ++ events),
         Returned tt)
    end.
Proof.
  cbv beta iota zeta delta
    [fetchTransactions getTransactions apiClient_get try_finally try_catch bind
     setIsLoading setError setTransactions modify emit throw loading_state
     state remote trace].
  destruct w as [s r t]. destruct (http_get r) as [r' [fetched|e]]; simpl;
    rewrite <- app_assoc; reflexivity.
Qed.

(** [addTransaction] run to completion. *)
Lemma addTransaction_run (p : TransactionPayload) (w : World R) :
  create p w =
    let events := [CallAddTransaction p; RequestPost p (creating_state (state w))] in
    match http_post p (remote w) with
    | (r1, Returned _) =>
        load (mkWorld (creating_state (state w)) r1 (trace w ++ events))
    | (r1, Thrown _) =>
        (mkWorld
           (mkState (transactions (state w)) false
              (Some "Failed to create the transaction on the server."))
           r1 (trace w ++ events),
         Returned tt)
    end.
Proof.
  cbv beta iota zeta delta
    [addTransaction createTransaction apiClient_post try_catch bind
     setIsLoading setError modify emit throw creating_state state remote trace].
  destruct w as [s r t]. destruct (http_post p r) as [r1 [created|e]]; simpl.
  - rewrite <- app_assoc. simpl. rewrite fetchTransactions_run. simpl.
    by destruct (http_get r1) as [r2 [fetched|e]].
  - rewrite <- app_assoc. reflexivity.
Qed.

(** C3: when the creation request of [addTransaction] succeeds, the store is
    left exactly as [load()] leaves it when run against the remote service as
    the creation left it, whatever the store held before: the collection is
    the fetched one, not the previous one with the submitted object merged
    in; and when reading does not change the remote service, one more
    [load()] returns that same collection. *)
Theorem addTransaction_read_after_write
    (w : World R) (p : TransactionPayload) (r1 : R) (created : Transaction) :
  http_post p (remote w) = (r1, Returned created) ->
  (forall (s0 : State) (t0 : list Event),
     state (exec (create p) w) = state (exec load (mkWorld s0 r1 t0))) /\
  (forall r2 fetched, http_get r1 = (r2, Returned fetched) ->
     transactions (state (exec (create p) w)) = fetched) /\
  (forall answer, http_get r1 = (r1, answer) ->
     transactions (state (exec load (exec (create p) w))) =
     transactions (state (exec (create p) w))).
Proof.
  intros Hpost. unfold exec.
  rewrite addTransaction_run, Hpost. simpl.
  split; [| split].
  - intros s0 t0. rewrite !fetchTransactions_run. simpl.
    by destruct (http_get r1) as [r2 [fetched|e]].
  - intros r2 fetched Hget. rewrite fetchTransactions_run. simpl. by rewrite Hget.
  - intros answer Hget. rewrite !fetchTransactions_run. simpl. rewrite Hget.
    destruct answer as [fetched|e]; simpl; by rewrite Hget.
Qed.

(** C4: when the creation request of [addTransaction] fails, the collection
    is the one held before the call, an error message is present, and no
    [load()] runs: the call adds its own entry and its POST to the trace and
    nothing else. *)
Theorem addTransaction_failure
    (w : World R) (p : TransactionPayload) (r1 : R) (e : JsError) :
  http_post p (remote w) = (r1, Thrown e) ->
  transactions (state (exec (create p) w)) = transactions (state w) /\
  error (state (exec (create p) w)) =
    Some "Failed to create the transaction on the server." /\
  trace (exec (create p) w) =
    trace w ++ [CallAddTransaction p; RequestPost p (creating_state (state w))] /\
  filter is_fetch_call (trace (exec (create p) w)) = filter is_fetch_call (trace w) /\
  filter is_get (trace (exec (create p) w)) = filter is_get (trace w).
Proof.
  intros Hpost. unfold exec. rewrite addTransaction_run, Hpost. simpl.
  repeat split; rewrite filter_app; simpl; by rewrite app_nil_r.
Qed.

(** C5: when the request of [load()] fails, the collection is empty and the
    error state holds a message. *)
Theorem fetchTransactions_failure (w : World R) (r' : R) (e : JsError) :
  http_get (remote w) = (r', Thrown e) ->
  transactions (state (exec load w)) = [] /\
  error (state (exec load w)) =
    Some "Failed to fetch transactions from the server.".
Proof.
  intros Hget. unfold exec. rewrite fetchTransactions_run. simpl.
  by rewrite Hget.
Qed.

(** C10: every [load()] sends exactly one request, and while that request is
    in flight the error state is null; when the request succeeds, the error
    state is null afterwards and the collection is the fetched list, whatever
    the store held before. *)
Theorem fetchTransactions_clears_error (w : World R) :
  (exists visible,
     trace (exec load w) = trace w ++ [CallFetchTransactions; RequestGet visible] /\
     error visible = None) /\
  (forall r' fetched, http_get (remote w) = (r', Returned fetched) ->
     error (state (exec load w)) = None /\
     transactions (state (exec load w)) = fetched).
Proof.
  unfold exec. rewrite fetchTransactions_run. simpl. split.
  - exists (loading_state (state w)).
    by destruct (http_get (remote w)) as [r' [fetched|e]].
  - intros r' fetched Hget. by rewrite Hget.
Qed.

End StoreTheorems.

Section StoreExamples.
Import Store Example.

Lemma addTransaction_read_after_write_witness :
  transactions (state (exec (addTransaction Server http_get http_post payload) online))
  = [row1; row2; created].
Proof.
  exact (proj1 (proj2 (addTransaction_read_after_write Server http_get http_post
                         online payload (mkServer [row1; row2; created] true) created
                         eq_refl))
           (mkServer [row1; row2; created] true) [row1; row2; created] eq_refl).
Defined.

Lemma addTransaction_failure_witness :
  transactions (state (exec (addTransaction Server http_get http_post payload) offline))
  = [row1] /\
  error (state (exec (addTransaction Server http_get http_post payload) offline))
  = Some "Failed to create the transaction on the server."%string.
Proof.
  destruct (addTransaction_failure Server http_get http_post offline payload
              (mkServer [row1; row2] false) axiosError eq_refl) as (Ht & He & _).
  split; [exact Ht | exact He].
Defined.

Lemma fetchTransactions_failure_witness :
  transactions (state (exec (fetchTransactions Server http_get) offline)) = [] /\
  error (state (exec (fetchTransactions Server http_get) offline))
  = Some "Failed to fetch transactions from the server."%string.
Proof.
  exact (fetchTransactions_failure Server http_get offline
           (mkServer [row1; row2] false) axiosError eq_refl).
Defined.

Lemma fetchTransactions_clears_error_witness :
  error (state online) = Some "Failed to fetch transactions from the server."%string /\
  error (state (exec (fetchTransactions Server http_get) online)) = None /\
  transactions (state (exec (fetchTransactions Server http_get) online)) = [row1; row2].
Proof.
  split; [reflexivity |].
  exact (proj2 (fetchTransactions_clears_error Server http_get online)
           (mkServer [row1; row2] true) [row1; row2] eq_refl).
Defined.

(** The collection after a successful create is not the stale one with the
    created object appended. *)
Example addTransaction_does_not_merge :
  transactions (state (exec (addTransaction Server http_get http_post payload) online))
  <> transactions (state online) ++ [created].
Proof. discriminate. Qed.

(** A create that succeeds followed by a reload that fails leaves what a
    failed [load()] leaves. *)
Example addTransaction_reload_fails :
  let flaky_get (r : Server) := (r, Thrown axiosError : outcome (list Transaction)) in
  state (exec (addTransaction Server flaky_get http_post payload) online)
  = mkState [] false (Some "Failed to fetch transactions from the server."%string).
Proof. reflexivity. Qed.

End StoreExamples.

(** ** The transaction form *)

Section FormTheorems.
Import JsString JsNumber Form.

Lemma truthy_false (s : string) : truthy s = false <-> s = ""%string.
Proof. destruct s; simpl; split; congruence. Qed.

Lemma keys_length_set_amount msg e :
  (0 < FormErrors.keys_length (FormErrors.set_amount msg e))%nat.
Proof. unfold FormErrors.keys_length. simpl. lia. Qed.

Lemma keys_length_lender e :
  is_Some (FormErrors.lender e) -> (0 < FormErrors.keys_length e)%nat.
Proof. intros [m Hm]. unfold FormErrors.keys_length. rewrite Hm. lia. Qed.

Lemma keys_length_borrower e :
  is_Some (FormErrors.borrower e) -> (0 < FormErrors.keys_length e)%nat.
Proof. intros [m Hm]. unfold FormErrors.keys_length. rewrite Hm. lia. Qed.

(** The amount checks never remove a name error. *)
Lemma validateForm_names_kept (f : FormState) :
  let tl := trim (lender f) in
  let tb := trim (borrower f) in
  (truthy tl = false -> is_Some (FormErrors.lender (validateForm f))) /\
  (truthy tb = false -> is_Some (FormErrors.borrower (validateForm f))) /\
  (truthy tl = true -> truthy tb = true ->
   toLowerCase tl = toLowerCase tb ->
   is_Some (FormErrors.borrower (validateForm f))).
Proof.
  simpl. unfold validateForm.
  destruct (String.eqb_spec (toLowerCase (trim (lender f)))
              (toLowerCase (trim (borrower f)))) as [Heq|Hne];
    destruct (truthy (trim (lender f))), (truthy (trim (borrower f)));
    destruct (truthy (amount f));
    destruct (isNaN (parseFloat (amount f)) || le_zero (parseFloat (amount f)));
    simpl; repeat split; intros; eauto; congruence.
Qed.

Lemma validateForm_rejects (f : FormState) :
  invalid f -> (0 < FormErrors.keys_length (validateForm f))%nat.
Proof.
  intros [Hamount | Hnames].
  - unfold validateForm. destruct (truthy (amount f)); simpl.
    + replace (isNaN (parseFloat (amount f)) || le_zero (parseFloat (amount f)))
        with true.
      * apply keys_length_set_amount.
      * destruct Hamount as [-> | ->]; [done | by rewrite orb_true_r].
    + apply keys_length_set_amount.
  - destruct (validateForm_names_kept f) as (Hl & Hb & Hsame).
    destruct (truthy (trim (lender f))) eqn:El;
      [| by apply keys_length_lender, Hl].
    destruct (truthy (trim (borrower f))) eqn:Eb;
      [| by apply keys_length_borrower, Hb].
    destruct Hnames as [H | [H | H]].
    + apply truthy_false in H. congruence.
    + apply truthy_false in H. congruence.
    + by apply keys_length_borrower, Hsame.
Qed.

Variable R : Type.
Variable http_get : R -> R * Store.outcome (list Transaction).
Variable http_post : TransactionPayload -> R -> R * Store.outcome Transaction.

(** C6: a submission whose amount is zero, negative or not a number, whose
    lender or borrower is empty once trimmed, or whose lender equals the
    borrower when case is ignored, is rejected by the validation, and
    [handleSubmit] stops there: it only stores the validation errors in the
    form, and the world (the store, the remote service and the trace of calls
    of [addTransaction] and of requests) is left as it was. *)
Theorem handleSubmit_rejects (f : FormState) (w : Store.World R) :
  invalid f ->
  (0 < FormErrors.keys_length (validateForm f))%nat /\
  handleSubmit R http_get http_post f w = (setErrors (validateForm f) f, w) /\
  Store.trace (snd (handleSubmit R http_get http_post f w)) = Store.trace w.
Proof.
  intros Hinv. pose proof (validateForm_rejects f Hinv) as Hkeys.
  assert (Hrun : handleSubmit R http_get http_post f w
                 = (setErrors (validateForm f) f, w)).
  { unfold handleSubmit.
    destruct (Nat.ltb_spec 0 (FormErrors.keys_length (validateForm f)));
      [reflexivity | lia]. }
  split; [exact Hkeys | split; [exact Hrun | by rewrite Hrun]].
Qed.

End FormTheorems.

Section FormExamples.
Import JsString JsNumber Form Example.

Lemma handleSubmit_rejects_witness :
  snd (handleSubmit Server http_get http_post (form "Bob" " bob " "12.50") online)
  = online.
Proof.
  destruct (handleSubmit_rejects Server http_get http_post
              (form "Bob" " bob " "12.50") online
              (or_intror (or_intror (or_intror eq_refl)))) as (_ & Hrun & _).
  rewrite Hrun. reflexivity.
Defined.

(** The rejected submissions named by the specification, run on the source:
    amount 0, amount -5, an amount that is not a number, an empty amount, an
    empty lender, a blank borrower, and Bob lending to bob. *)
Example handleSubmit_rejected_inputs (w : Store.World Server) :
  Forall (fun f => snd (handleSubmit Server http_get http_post f w) = w
                   /\ validateForm f <> FormErrors.empty)
    [form "Ann" "Bob" "0"; form "Ann" "Bob" "-5"; form "Ann" "Bob" "abc";
     form "Ann" "Bob" ""; form "" "Bob" "5"; form "Ann" "   " "5";
     form "Bob" "bob" "5"].
Proof. repeat constructor; discriminate. Qed.

(** An amount that rounds to zero is rejected; one that rounds to Infinity
    is accepted. *)
Example validateForm_rounded_amounts :
  validateForm (form "Ann" "Bob" "1e-400")
  = FormErrors.set_amount "Please enter a valid positive amount." FormErrors.empty /\
  validateForm (form "Ann" "Bob" "1e400") = FormErrors.empty.
Proof. split; by vm_compute. Qed.

(** [parseFloat] reads a numeric prefix: such an amount counts as a number. *)
Example validateForm_numeric_prefix :
  parseFloat "12abc" = of_Z 12 /\
  validateForm (form "Ann" "Bob" "12abc") = FormErrors.empty.
Proof. split; reflexivity. Qed.

(** A valid submission does reach the store. *)
Example handleSubmit_accepts :
  Store.trace (snd (handleSubmit Server http_get http_post (form " B" "C " "4") online))
  = [Store.CallAddTransaction payload;
     Store.RequestPost payload (Store.creating_state (Store.state online));
     Store.CallFetchTransactions;
     Store.RequestGet (Store.mkState [row1] true None)] /\
  Store.transactions
    (Store.state (snd (handleSubmit Server http_get http_post (form " B" "C " "4") online)))
  = [row1; row2; created].
Proof. split; reflexivity. Qed.

End FormExamples.


(** * Further properties of the code *)

(** ** The balance summary *)

Section TrimFacts.
Import JsString.

Lemma trimStart_fixed c r :
  isWhiteSpace c = false -> trimStart (String c r) = String c r.
Proof. intros H. simpl. by rewrite H. Qed.

Lemma trimStart_head (s : string) :
  trimStart s = ""%string \/
  exists c r, trimStart s = String c r /\ isWhiteSpace c = false.
Proof.
  induction s as [|c s IH]; simpl; [by left |].
  destruct (isWhiteSpace c) eqn:Hc; [exact IH | right; eauto].
Qed.

Lemma trimEnd_head c r :
  isWhiteSpace c = false -> exists r', trimEnd (String c r) = String c r'.
Proof. intros H. simpl. rewrite H. destruct (trimEnd r); eauto. Qed.

Lemma trimEnd_idempotent (s : string) : trimEnd (trimEnd s) = trimEnd s.
Proof.
  induction s as [|c s IH]; simpl; [done |].
  destruct (trimEnd s) as [|d r] eqn:Hr.
  - destruct (isWhiteSpace c) eqn:Hc; simpl; [done | by rewrite Hc].
  - change (trimEnd (String c (String d r))) with
      (match trimEnd (String d r) with
       | EmptyString => if isWhiteSpace c then EmptyString else String c EmptyString
       | r0 => String c r0
       end).
    by rewrite IH.
Qed.

Lemma trim_idempotent (s : string) : trim (trim s) = trim s.
Proof.
  unfold trim. destruct (trimStart_head s) as [-> | (c & r & -> & Hc)]; [done |].
  destruct (trimEnd_head c r Hc) as [r' Hr']. rewrite Hr'.
  rewrite (trimStart_fixed _ _ Hc), <- Hr'. apply trimEnd_idempotent.
Qed.

End TrimFacts.

Section AggregatorExtras.
Import JsString JsNumber JsObject Aggregator Vocabulary.

Lemma occurs_names k (txs : list Transaction) :
  k ∈ names txs <-> is_lender k txs \/ is_borrower k txs.
Proof.
  unfold names, is_lender, is_borrower. rewrite elem_of_list_to_set.
  induction txs as [|t txs IH]; simpl.
  - rewrite !Exists_nil. rewrite elem_of_nil. tauto.
  - rewrite !Exists_cons, !elem_of_cons, IH. intuition congruence.
Qed.

Lemma summaries_dom (txs : list Transaction) :
  dom (summaries txs) = names txs ∖ {["__proto__"%string]}.
Proof.
  apply set_eq; intros k.
  rewrite elem_of_dom, summaries_lookup_fold, foldl_key_step_is_Some.
  rewrite elem_of_difference, elem_of_singleton, occurs_names.
  split; [intros [[? ?]|?]; [done | tauto] | tauto].
Qed.

(** X1: when the amounts are integers with absolute values summing to less
    than 2^53, a name that is not an inherited property name has a balance
    exactly when it occurs (trimmed) in the list, and the balance is the
    number of what it borrowed minus what it lent. *)
Theorem summaries_net_balance (txs : list Transaction) (k : string) (v : stored) :
  exact_amounts txs -> plain k ->
  (summaries txs !! k = Some v <->
   (is_lender k txs \/ is_borrower k txs) /\
   v = as_number (Ideal.sum_borrowed k txs - Ideal.sum_lent k txs)).
Proof.
  intros Hexact Hplain.
  rewrite (summaries_lookup_exact txs k Hexact Hplain), balances_lookup.
  case_decide; simpl; split.
  - intros [= <-]. done.
  - intros [_ ->]. done.
  - done.
  - tauto.
Qed.

(** X2: the keys of the summary are exactly the trimmed lender and borrower
    names of the list, except [__proto__], which never becomes a key. *)
Theorem summaries_keys (txs : list Transaction) :
  dom (summaries txs) = names txs ∖ {["__proto__"%string]}.
Proof. apply summaries_dom. Qed.

(** X4: when the amounts are integers with absolute values summing to less
    than 2^53, recording a loan and then the same loan in the other direction
    leaves the balance of every name that is not an inherited property name
    as it was (a name that was absent gets balance 0). *)
Theorem summaries_repayment (txs : list Transaction) (t : Transaction) (k : string) :
  exact_amounts (txs ++ [t; reverse t]) -> plain k ->
  default (Number zero) (summaries (txs ++ [t; reverse t]) !! k)
  = default (Number zero) (summaries txs !! k).
Proof.
  intros Hexact Hplain.
  assert (Hexact' : exact_amounts txs).
  { destruct Hexact as [Hint Hvol]. apply Forall_app in Hint as [Hint _].
    rewrite volume_app in Hvol. pose proof (volume_nonneg [t; reverse t]).
    split; [done | lia]. }
  rewrite (summaries_lookup_exact _ _ Hexact Hplain).
  rewrite (summaries_lookup_exact _ _ Hexact' Hplain).
  unfold Ideal.balances. rewrite foldl_app. cbn [foldl].
  rewrite !step_lookup. fold (Ideal.balances txs).
  assert (Hz : Ideal.borrowed k t - Ideal.lent k t
               + Ideal.borrowed k (reverse t) - Ideal.lent k (reverse t) = 0).
  { unfold Ideal.borrowed, Ideal.lent, reverse, units. simpl. repeat case_decide; lia. }
  change (trim (lender (reverse t))) with (trim (borrower t)).
  change (trim (borrower (reverse t))) with (trim (lender t)).
  destruct (Ideal.balances txs !! k) as [z|]; simpl.
  - unfold as_number. do 2 f_equal. lia.
  - destruct (decide (trim (lender t) = k \/ trim (borrower t) = k)) as [H|H]; simpl.
    + unfold as_number. change zero with (of_Z 0). do 2 f_equal. lia.
    + by rewrite decide_False by tauto.
Qed.

Lemma summaries_empty_inv (txs : list Transaction) :
  summaries txs = ∅ <-> names txs ⊆ {["__proto__"%string]}.
Proof.
  rewrite <- dom_empty_iff_L, summaries_dom.
  generalize (names txs) "__proto__"%string. intros X p.
  split; intros H.
  - intros x Hx. destruct (decide (x = p)) as [-> | Hne].
    + by apply elem_of_singleton.
    + assert (Hin : x ∈ X ∖ {[p]}).
      { apply elem_of_difference. by rewrite elem_of_singleton. }
      rewrite H in Hin. by apply elem_of_empty in Hin.
  - apply set_eq; intros x. rewrite elem_of_difference. split.
    + intros [Hx Hn]. by apply H in Hx.
    + intros Hx. by apply elem_of_empty in Hx.
Qed.

(** X5: the summary is empty exactly when no name other than [__proto__]
    occurs in the list; in particular for the empty list. *)
Theorem summaries_empty_iff (txs : list Transaction) :
  (summaries txs = ∅ <-> names txs ⊆ {["__proto__"%string]}) /\
  summaries [] = ∅.
Proof. split; [apply summaries_empty_inv | done]. Qed.

(** X6: white space around the names of a record does not matter: trimming
    the names of every record beforehand gives the same summary. *)
Theorem summaries_trimmed (txs : list Transaction) :
  summaries (map trimmed txs) = summaries txs.
Proof.
  unfold summaries. generalize (∅ : Summary).
  induction txs as [|t txs IH]; intros m; simpl; [done |].
  rewrite IH. f_equal. unfold body, trimmed. simpl. by rewrite !trim_idempotent.
Qed.

End AggregatorExtras.

Section AggregatorExtrasExamples.
Import JsNumber Aggregator Vocabulary.

Lemma summaries_net_balance_witness :
  summaries [tx "A" "B" 10; tx "B" "A" 4] !! "A"%string = Some (as_number (-6)).
Proof.
  apply (summaries_net_balance [tx "A" "B" 10; tx "B" "A" 4] "A" (as_number (-6))).
  - split; [repeat constructor | reflexivity].
  - reflexivity.
  - split; [left; apply Exists_cons_hd; reflexivity | reflexivity].
Defined.

Lemma summaries_repayment_witness :
  default (Number zero)
    (summaries ([tx "A" "B" 10] ++ [tx "B" "C" 4; reverse (tx "B" "C" 4)]) !! "C"%string)
  = Number zero.
Proof.
  rewrite (summaries_repayment [tx "A" "B" 10] (tx "B" "C" 4) "C").
  - reflexivity.
  - split; [repeat constructor | reflexivity].
  - reflexivity.
Defined.

End AggregatorExtrasExamples.

(** ** The transaction store *)

Section StoreExtras.
Import Store Vocabulary.

Variable R : Type.
Variable http_get : R -> R * outcome (list Transaction).
Variable http_post : TransactionPayload -> R -> R * outcome Transaction.

Local Abbreviation load := (fetchTransactions R http_get).
Local Abbreviation create := (addTransaction R http_get http_post).

Lemma addTransaction_returns (p : TransactionPayload) (w : World R) :
  snd (create p w) = Returned tt.
Proof.
  rewrite addTransaction_run. simpl.
  destruct (http_post p (remote w)) as [r1 [created|e]]; simpl; [| done].
  rewrite fetchTransactions_run. simpl.
  by destruct (http_get r1) as [r2 [fetched|e]].
Qed.

(** X7: [fetchTransactions] never throws and always ends with the busy flag
    cleared; afterwards the error state is null exactly when the request
    succeeded, and otherwise it is the fixed message of the API layer with an
    empty collection, whatever the rejected request carried. *)
Theorem fetchTransactions_completes (w : World R) :
  snd (load w) = Returned tt /\
  isLoading (state (exec load w)) = false /\
  (error (state (exec load w)) = None <->
   exists fetched, snd (http_get (remote w)) = Returned fetched) /\
  (forall e, snd (http_get (remote w)) = Thrown e ->
     state (exec load w) = mkState [] false (Some fetch_failed)).
Proof.
  unfold exec. rewrite fetchTransactions_run. simpl.
  destruct (http_get (remote w)) as [r' [fetched|e]]; simpl.
  - repeat split; eauto. discriminate.
  - repeat split; try discriminate. intros [fetched Hf]. discriminate.
Qed.

(** X8: [addTransaction] never rethrows and always ends with the busy flag
    cleared; the error state it leaves is null or one of the two fixed
    messages of the API layer, and it is the creation message exactly when
    the creation request failed. *)
Theorem addTransaction_completes (p : TransactionPayload) (w : World R) :
  snd (create p w) = Returned tt /\
  isLoading (state (exec (create p) w)) = false /\
  (error (state (exec (create p) w)) = None \/
   error (state (exec (create p) w)) = Some fetch_failed \/
   error (state (exec (create p) w)) = Some create_failed) /\
  (error (state (exec (create p) w)) = Some create_failed <->
   exists e, snd (http_post p (remote w)) = Thrown e).
Proof.
  unfold exec. rewrite addTransaction_run. simpl.
  destruct (http_post p (remote w)) as [r1 [created|e]]; simpl.
  - rewrite fetchTransactions_run. simpl.
    destruct (http_get r1) as [r2 [fetched|e]]; simpl;
      repeat split; eauto; try discriminate; by intros [e' He'].
  - repeat split; eauto.
Qed.

(** X9: a create that succeeds sends exactly one POST and then exactly one
    GET; the collection held before stays visible during both, and the error
    state is cleared only for the GET. *)
Theorem addTransaction_sequence
    (p : TransactionPayload) (w : World R) (r1 : R) (created : Transaction) :
  http_post p (remote w) = (r1, Returned created) ->
  trace (exec (create p) w) =
    trace w ++ [CallAddTransaction p; RequestPost p (creating_state (state w));
                CallFetchTransactions; RequestGet (loading_state (state w))].
Proof.
  intros Hpost. unfold exec. rewrite addTransaction_run, Hpost. simpl.
  rewrite fetchTransactions_run. simpl.
  destruct (http_get r1) as [r2 [fetched|e]]; simpl; by rewrite <- app_assoc.
Qed.

End StoreExtras.

Section StoreExtrasExamples.
Import Store Example Vocabulary.

Lemma addTransaction_sequence_witness :
  trace (exec (addTransaction Server http_get http_post payload) online) =
    [CallAddTransaction payload;
     RequestPost payload (creating_state (state online));
     CallFetchTransactions;
     RequestGet (mkState [row1] true None)].
Proof.
  exact (addTransaction_sequence Server http_get http_post payload online
           (mkServer [row1; row2; created] true) created eq_refl).
Defined.

End StoreExtrasExamples.

(** ** The views *)

Section ViewFacts.
Import JsNumber Aggregator Views.

Lemma filter_entries (m : Summary) (test : string * stored -> bool) k v :
  (k, v) ∈ List.filter test (map_to_list m) <-> m !! k = Some v /\ test (k, v) = true.
Proof.
  rewrite list_elem_of_In, filter_In, <- list_elem_of_In, elem_of_map_to_list. tauto.
Qed.

Lemma is_owedToUser_spec k v :
  is_owedToUser (k, v) = true <-> exists balance, v = Number balance /\ lt zero balance = true.
Proof.
  unfold is_owedToUser. destruct v as [x|l]; simpl; split.
  - eauto.
  - by intros (? & [= <-] & ?).
  - done.
  - by intros (? & ? & ?).
Qed.

Lemma is_owedByUser_spec k v :
  is_owedByUser (k, v) = true <-> exists balance, v = Number balance /\ lt balance zero = true.
Proof.
  unfold is_owedByUser. destruct v as [x|l]; simpl; split.
  - eauto.
  - by intros (? & [= <-] & ?).
  - done.
  - by intros (? & ? & ?).
Qed.

Lemma not_owed_both (e : string * stored) :
  is_owedToUser e = true -> is_owedByUser e = true -> False.
Proof.
  destruct e as [k [x|l]]; [| done]. unfold is_owedToUser, is_owedByUser. simpl.
  destruct x as [[]|[]| |[] m e]; cbn; congruence.
Qed.

Lemma NoDup_two_filters (l : list (string * stored)) :
  NoDup (map fst l) ->
  NoDup (map fst (List.filter is_owedToUser l ++ List.filter is_owedByUser l)).
Proof.
  intros Hnd. induction l as [|e l IH]; simpl; [constructor |].
  simpl in Hnd. apply NoDup_cons in Hnd as [Hk Hnd]. specialize (IH Hnd).
  assert (Hsub : forall test x,
             x ∈ map fst (List.filter test l) -> x ∈ map fst l).
  { intros test x. rewrite !list_elem_of_In, !in_map_iff.
    intros (e' & He & Hin). apply filter_In in Hin. exists e'. tauto. }
  assert (Hfresh : fst e ∉ map fst (List.filter is_owedToUser l
                                     ++ List.filter is_owedByUser l)).
  { rewrite map_app, elem_of_app. intros [H|H]; apply Hsub in H; done. }
  pose proof (not_owed_both e) as Hboth.
  destruct (is_owedToUser e), (is_owedByUser e); simpl; try done.
  - exfalso. by apply Hboth.
  - by apply NoDup_cons.
  - rewrite map_app in *. simpl. apply NoDup_app.
    apply NoDup_app in IH as (IH1 & IH2 & IH3).
    rewrite elem_of_app in Hfresh.
    split; [done | split].
    + intros x Hx. rewrite elem_of_cons. intros [-> | Hx2]; [tauto |].
      by apply (IH2 x).
    + apply NoDup_cons. tauto.
Qed.

(** X10: when [SummaryDisplay] renders sections, "Who Owes You" lists exactly
    the names whose balance is a number above 0 and "Who You Owe" exactly
    those whose balance is a number below 0: a name with balance 0, with
    not-a-number or with a string is listed nowhere, and no name is listed
    twice. *)
Theorem SummaryDisplay_sections
    (m : Summary) (owedToUser owedByUser : list (string * stored)) :
  SummaryDisplay m = SummarySections owedToUser owedByUser ->
  (forall k v, (k, v) ∈ owedToUser <->
     m !! k = Some v /\ exists balance, v = Number balance /\ lt zero balance = true) /\
  (forall k v, (k, v) ∈ owedByUser <->
     m !! k = Some v /\ exists balance, v = Number balance /\ lt balance zero = true) /\
  NoDup (map fst (owedToUser ++ owedByUser)).
Proof.
  unfold SummaryDisplay. destruct (size m =? 0)%nat; [done |].
  intros [= <- <-]. split; [| split].
  - intros k v. by rewrite filter_entries, is_owedToUser_spec.
  - intros k v. by rewrite filter_entries, is_owedByUser_spec.
  - apply NoDup_two_filters, NoDup_fst_map_to_list.
Qed.

Lemma total_entries (m : Summary) :
  total m = foldr (fun entry acc => units_of (snd entry) + acc) 0 (map_to_list m).
Proof.
  unfold total. rewrite map_fold_foldr.
  induction (map_to_list m) as [|[k v] l IH]; simpl; [done | by rewrite IH].
Qed.

Lemma entries_split (l : list (string * stored)) :
  Forall (fun entry => exists z, snd entry = as_number z /\ Z.abs z < 2 ^ 53) l ->
  foldr (fun entry acc => units_of (snd entry) + acc) 0 l
  = sum_list (map balance_of (List.filter is_owedToUser l))
    - sum_list (map (fun entry => abs (balance_of entry)) (List.filter is_owedByUser l)).
Proof.
  induction 1 as [|[k v] l (z & Hv & Hz) Hl IH]; [done |].
  simpl in Hv. subst v. cbn [foldr List.filter]. rewrite IH.
  change (is_owedToUser (k, as_number z)) with (lt zero (of_Z z)).
  change (is_owedByUser (k, as_number z)) with (lt (of_Z z) zero).
  change (units_of (snd (k, as_number z))) with (to_Z (of_Z z)).
  assert (Hpos : lt zero (of_Z z) = (0 <? z)).
  { apply Bool.eq_true_iff_eq. by rewrite (of_Z_positive z Hz), Z.ltb_lt. }
  assert (Hneg : lt (of_Z z) zero = (z <? 0)).
  { apply Bool.eq_true_iff_eq. by rewrite (of_Z_negative z Hz), Z.ltb_lt. }
  assert (Habs : to_Z (abs (of_Z z)) = Z.abs z).
  { rewrite abs_of_Z by done. apply to_Z_of_Z. lia. }
  rewrite Hpos, Hneg, (to_Z_of_Z z Hz).
  destruct (Z.ltb_spec 0 z), (Z.ltb_spec z 0);
    cbn [map sum_list balance_of snd as_number];
    rewrite ?Habs, ?(to_Z_of_Z z Hz); lia.
Qed.

(** X11: when the amounts are integers with absolute values summing to less
    than 2^53 and no name is an inherited property name, the amounts written
    under "Who Owes You" and those written under "Who You Owe" have the same
    total. *)
Theorem SummaryDisplay_balanced (txs : list Transaction) :
  exact_amounts txs -> plain_names txs ->
  sum_list (amounts_owedToUser (SummaryDisplay (summaries txs))) =
  sum_list (amounts_owedByUser (SummaryDisplay (summaries txs))).
Proof.
  intros Hexact Hplain.
  unfold SummaryDisplay. destruct (size (summaries txs) =? 0)%nat; [done |].
  cbn [amounts_owedToUser amounts_owedByUser].
  assert (Hsmall : forall k z, Ideal.balances txs !! k = Some z -> Z.abs z < 2 ^ 53).
  { intros k z. apply balance_small, Hexact. }
  assert (Hz : total (summaries txs) = 0).
  { rewrite summaries_exact, total_as_number by done. apply total_balances. }
  rewrite total_entries, entries_split in Hz; [lia |].
  apply Forall_forall. intros [k v] Hin.
  apply elem_of_map_to_list in Hin.
  rewrite summaries_exact, lookup_fmap in Hin by done.
  destruct (Ideal.balances txs !! k) as [z|] eqn:Hk; [| done].
  injection Hin as <-. exists z. split; [done | by apply (Hsmall k)].
Qed.

(** X12: [SummaryDisplay] of the summary shows its "No summary data
    available." paragraph exactly when no name other than [__proto__] occurs
    in the list; a summary that is not empty and whose balances are all 0
    renders neither the paragraph nor a section. *)
Theorem SummaryDisplay_empty (txs : list Transaction) :
  (SummaryDisplay (summaries txs) = NoSummaryData <->
   Vocabulary.names txs ⊆ {["__proto__"%string]}) /\
  (summaries txs <> ∅ ->
   (forall k v, summaries txs !! k = Some v -> v = Number zero) ->
   SummaryDisplay (summaries txs) = SummarySections [] []).
Proof.
  assert (Hsize : (size (summaries txs) =? 0)%nat = true <-> summaries txs = ∅).
  { by rewrite Nat.eqb_eq, map_size_empty_iff. }
  unfold SummaryDisplay. split.
  - rewrite <- summaries_empty_inv.
    destruct (size (summaries txs) =? 0)%nat; split; try done; intros H.
    + by apply Hsize.
    + apply Hsize in H. done.
  - intros Hne Hzero.
    destruct (size (summaries txs) =? 0)%nat; [exfalso; by apply Hne, Hsize |].
    assert (Hnone : forall test,
               test = is_owedToUser \/ test = is_owedByUser ->
               List.filter test (map_to_list (summaries txs)) = []).
    { intros test Htest.
      destruct (List.filter test (map_to_list (summaries txs))) as [|[k v] l] eqn:Hf;
        [done |].
      assert (Hin : (k, v) ∈ List.filter test (map_to_list (summaries txs)))
        by (rewrite Hf; apply elem_of_cons; by left).
      apply filter_entries in Hin as [Hkv Ht].
      apply Hzero in Hkv. subst v. by destruct Htest as [-> | ->]. }
    by rewrite !Hnone by tauto.
Qed.

End ViewFacts.

Section ViewExamples.
Import JsNumber Aggregator Views.

Lemma SummaryDisplay_sections_witness :
  (("B"%string, as_number 10) ∈ [("B"%string, as_number 10)] <->
   summaries [tx "A" "B" 10] !! "B"%string = Some (as_number 10) /\
   exists balance, as_number 10 = Number balance /\ lt zero balance = true) /\
  (("A"%string, as_number (-10)) ∈ [("A"%string, as_number (-10))] <->
   summaries [tx "A" "B" 10] !! "A"%string = Some (as_number (-10)) /\
   exists balance, as_number (-10) = Number balance /\ lt balance zero = true).
Proof.
  destruct (SummaryDisplay_sections (summaries [tx "A" "B" 10])
              [("B"%string, as_number 10)] [("A"%string, as_number (-10))] eq_refl)
    as (Hto & Hby & _).
  split; [apply Hto | apply Hby].
Defined.

Lemma SummaryDisplay_balanced_witness :
  sum_list (amounts_owedToUser
              (SummaryDisplay (summaries [tx "A" "B" 10; tx "C" "A" 4]))) =
  sum_list (amounts_owedByUser
              (SummaryDisplay (summaries [tx "A" "B" 10; tx "C" "A" 4]))).
Proof.
  apply (SummaryDisplay_balanced [tx "A" "B" 10; tx "C" "A" 4]).
  - split; [repeat constructor | reflexivity].
  - repeat constructor.
Defined.

(** A loan that was repaid in full: every balance is zero and nothing is
    rendered.  The same for a summary that holds not-a-number and a string. *)
Example SummaryDisplay_all_settled :
  SummaryDisplay (summaries [tx "A" "B" 10; tx "B" "A" 10]) = SummarySections [] [] /\
  SummaryDisplay (summaries [tx "constructor" "toString" 10]) = SummarySections [] [].
Proof. split; by vm_compute. Qed.

End ViewExamples.

(** ** The pages over the store *)

Section PageTheorems.
Import Store Views Vocabulary.

Variable R : Type.
Variable http_get : R -> R * outcome (list Transaction).
Variable http_post : TransactionPayload -> R -> R * outcome Transaction.

Local Abbreviation load := (fetchTransactions R http_get).
Local Abbreviation create := (addTransaction R http_get http_post).

(** X13: while a request of [fetchTransactions] or of [addTransaction] is in
    flight, the ledger page and the summary page show their loading
    paragraph. *)
Theorem pages_loading_during_requests (p : TransactionPayload) (w : World R) :
  (exists events, trace (exec load w) = trace w ++ events /\
                  Forall shows_loading events) /\
  (exists events, trace (exec (create p) w) = trace w ++ events /\
                  Forall shows_loading events).
Proof.
  unfold exec. split.
  - rewrite fetchTransactions_run. simpl. eexists. split.
    + by destruct (http_get (remote w)) as [r' [fetched|e]].
    + repeat constructor.
  - rewrite addTransaction_run. simpl.
    destruct (http_post p (remote w)) as [r1 [created|e]]; simpl.
    + rewrite fetchTransactions_run. simpl. eexists. split.
      * destruct (http_get r1) as [r2 [fetched|e]]; simpl;
          by rewrite <- app_assoc.
      * repeat constructor.
    + eexists. split; [done | repeat constructor].
Qed.

(** X14: after a create whose request failed, both pages show the error
    paragraph, with their "Failed to load" prefix, and not the collection,
    which the store still holds. *)
Theorem pages_after_failed_create
    (p : TransactionPayload) (w : World R) (r1 : R) (e : JsError) :
  http_post p (remote w) = (r1, Thrown e) ->
  LedgerPage (state (exec (create p) w)) =
    PageError ("Failed to load transactions: " ++ create_failed) /\
  SummaryPage (state (exec (create p) w)) =
    PageError ("Failed to load summary: " ++ create_failed) /\
  transactions (state (exec (create p) w)) = transactions (state w).
Proof.
  intros Hpost. unfold exec. rewrite addTransaction_run, Hpost. done.
Qed.

(** X15: after [fetchTransactions], the pages show the fetched data when the
    request succeeded, whatever error or collection the store held before: the
    ledger shows one row per fetched transaction, in order, or its empty-state
    paragraph. *)
Theorem pages_after_load
    (w : World R) (r' : R) (fetched : list Transaction) :
  http_get (remote w) = (r', Returned fetched) ->
  LedgerPage (state (exec load w)) = PageContent (TransactionList fetched) /\
  SummaryPage (state (exec load w)) =
    PageContent (SummaryDisplay (Aggregator.summaries fetched)) /\
  (fetched = [] -> TransactionList fetched = NoTransactions) /\
  (fetched <> [] ->
   TransactionList fetched =
     TransactionTable (map (fun t => (lender t, borrower t, amount t)) fetched)).
Proof.
  intros Hget. unfold exec. rewrite fetchTransactions_run. simpl. rewrite Hget.
  repeat split; try done.
  - by intros ->.
  - intros Hne. by destruct fetched.
Qed.

End PageTheorems.

Section PageExamples.
Import Store Views Example Vocabulary.

Lemma pages_after_failed_create_witness :
  LedgerPage (state (exec (addTransaction Server http_get http_post payload) offline))
  = PageError "Failed to load transactions: Failed to create the transaction on the server."
  /\ transactions (state (exec (addTransaction Server http_get http_post payload) offline))
     = [row1].
Proof.
  destruct (pages_after_failed_create Server http_get http_post payload offline
              (mkServer [row1; row2] false) axiosError eq_refl) as (Hl & _ & Ht).
  split; [exact Hl | exact Ht].
Defined.

Lemma pages_after_load_witness :
  LedgerPage (state online)
  = PageError "Failed to load transactions: Failed to fetch transactions from the server."
  /\ LedgerPage (state (exec (fetchTransactions Server http_get) online))
     = PageContent (TransactionTable [("A", "B", JsNumber.of_Z 10);
                                      ("C", "A", JsNumber.of_Z 2)]%string).
Proof.
  split; [reflexivity |].
  exact (proj1 (pages_after_load Server http_get online
                  (mkServer [row1; row2] true) [row1; row2] eq_refl)).
Defined.

End PageExamples.

(** ** The transaction form *)

Section FormExtras.
Import JsString JsNumber Form Vocabulary.

Lemma truthy_true (s : string) : truthy s = true <-> s <> ""%string.
Proof. destruct s; simpl; split; congruence. Qed.

Lemma valid_fields (f : FormState) :
  ~ invalid f ->
  truthy (trim (lender f)) = true /\
  truthy (trim (borrower f)) = true /\
  String.eqb (toLowerCase (trim (lender f))) (toLowerCase (trim (borrower f))) = false /\
  truthy (amount f) = true /\
  isNaN (parseFloat (amount f)) || le_zero (parseFloat (amount f)) = false.
Proof.
  unfold invalid, amount_rejected, names_rejected. intros H.
  repeat split.
  - apply truthy_true. tauto.
  - apply truthy_true. tauto.
  - apply String.eqb_neq. tauto.
  - apply truthy_true. intros Ha. apply H. left. left. by rewrite Ha.
  - destruct (isNaN (parseFloat (amount f))), (le_zero (parseFloat (amount f)));
      simpl; try done; exfalso; tauto.
Qed.

Lemma validateForm_valid (f : FormState) :
  ~ invalid f -> validateForm f = FormErrors.empty.
Proof.
  intros H. destruct (valid_fields f H) as (Hl & Hb & Hne & Ha & Hn).
  unfold validateForm. by rewrite Hl, Hb, Hne, Ha, Hn.
Qed.

(** X16: the validation returns no error exactly for the inputs that are not
    invalid: both names non-empty once trimmed and different when case is
    ignored, and an amount whose numeric prefix is a positive number. *)
Theorem validateForm_accepts_iff (f : FormState) :
  validateForm f = FormErrors.empty <-> ~ invalid f.
Proof.
  split; [| apply validateForm_valid].
  intros He Hinv. pose proof (validateForm_rejects f Hinv) as Hk.
  rewrite He in Hk. unfold FormErrors.keys_length in Hk. simpl in Hk. lia.
Qed.

Variable R : Type.
Variable http_get : R -> R * Store.outcome (list Transaction).
Variable http_post : TransactionPayload -> R -> R * Store.outcome Transaction.

(** X18: a submission that passes the validation calls [addTransaction] with
    the trimmed names and the parsed amount, and then always takes the success
    branch: the form is emptied and shows no error, also when the creation
    request failed; the failure is only in the error state of the store. *)
Theorem handleSubmit_valid (f : FormState) (w : Store.World R) :
  ~ invalid f ->
  handleSubmit R http_get http_post f w =
    (cleared, Store.exec (Store.addTransaction R http_get http_post (transactionData f)) w).
Proof.
  intros H. unfold handleSubmit. rewrite (validateForm_valid f H). simpl.
  unfold Form.addTransaction, Store.exec.
  fold (transactionData f).
  pose proof (addTransaction_returns R http_get http_post (transactionData f) w)
    as Hret.
  destruct (Store.addTransaction R http_get http_post (transactionData f) w)
    as [w' r]. simpl in *. by rewrite Hret.
Qed.

End FormExtras.

Section FormExtrasExamples.
Import JsString JsNumber Form Example Vocabulary.

Lemma form_is_valid : ~ invalid (form " B" "C " "4").
Proof.
  unfold invalid, amount_rejected, names_rejected.
  intros [[H|H]|[H|[H|H]]]; vm_compute in H; discriminate H.
Defined.

Lemma handleSubmit_valid_witness :
  handleSubmit Server http_get http_post (form " B" "C " "4") offline =
    (cleared,
     Store.mkWorld (Store.mkState [row1] false (Some create_failed))
       (mkServer [row1; row2] false)
       [Store.CallAddTransaction payload;
        Store.RequestPost payload (Store.creating_state (Store.state offline))]).
Proof.
  rewrite (handleSubmit_valid Server http_get http_post (form " B" "C " "4") offline
             form_is_valid).
  reflexivity.
Defined.

End FormExtrasExamples.
